(** * Luna cycle tracker: the cycle statistics engine, the phase classifier
      and the calendar-day resolver

    Shallow embedding of [utils/dateUtils.ts] ([getCyclePhase],
    [calculateCycleStats], [formatDate]) and of the two consumers in
    [App.tsx] ([currentPhase], [getDayStatus]), together with the part of
    JavaScript and of the [date-fns] library these functions rely on. *)

From Stdlib Require Import ZArith Lia Bool Ascii String.
From stdpp Require Import gmap strings list sorting.

Local Open Scope Z_scope.

(** ** JavaScript values used by the engine *)

Module JS.

(** A JavaScript [number] as the engine meets it: an integer, or [NaN]
    (what [parseInt] leaves in the settings form for an empty field, and what
    [differenceInDays] and [%] give on an invalid date or a zero divisor).
    Fractions and infinities are not modelled. *)
Inductive number : Type :=
| Num (z : Z)
| NaN.

(** [a + b], [a - b] *)
Definition add (a b : number) : number :=
  match a, b with
  | Num x, Num y => Num (x + y)
  | _, _ => NaN
  end.

Definition sub (a b : number) : number :=
  match a, b with
  | Num x, Num y => Num (x - y)
  | _, _ => NaN
  end.

(** [a % b]: the remainder takes the sign of the dividend, and a zero
    divisor gives [NaN]. *)
Definition rem (a b : number) : number :=
  match a, b with
  | Num x, Num y => if y =? 0 then NaN else Num (Z.rem x y)
  | _, _ => NaN
  end.

(** [a <= b], [a < b], [a > b], [a === b]: every comparison with [NaN] is
    false. *)
Definition le (a b : number) : bool :=
  match a, b with
  | Num x, Num y => x <=? y
  | _, _ => false
  end.

Definition lt (a b : number) : bool :=
  match a, b with
  | Num x, Num y => x <? y
  | _, _ => false
  end.

Definition gt (a b : number) : bool := lt b a.

Definition strict_eq (a b : number) : bool :=
  match a, b with
  | Num x, Num y => x =? y
  | _, _ => false
  end.

(** Truthiness: [0] and [NaN] are falsy numbers, the empty string is the
    falsy string. *)
Definition truthy (a : number) : bool :=
  match a with
  | Num x => negb (x =? 0)
  | NaN => false
  end.

Definition truthy_string (s : string) : bool :=
  match s with
  | EmptyString => false
  | String _ _ => true
  end.

(** [v || d] where [v] is a number or [undefined]. *)
Definition or_number (v : option number) (d : number) : number :=
  match v with
  | Some n => if truthy n then n else d
  | None => d
  end.

(** [v || null] where [v] is a string or [undefined]. *)
Definition or_null (v : option string) : option string :=
  match v with
  | Some s => if truthy_string s then Some s else None
  | None => None
  end.

(** [Math.round(total / count)] for a list length [count]: the quotient
    rounded to the nearest integer, halves towards plus infinity.  With an
    empty list the quotient is [0/0] or an infinity; the engine never divides
    by an empty length, and the model answers [NaN] there. *)
Definition round_div (total : number) (count : nat) : number :=
  match total, count with
  | Num s, S _ => let n := Z.of_nat count in Num ((2 * s + n) / (2 * n))
  | _, _ => NaN
  end.

(** [xs.reduce((a, b) => a + b, 0)] *)
Definition sum (xs : list number) : number :=
  fold_left add xs (Num 0).

(** What a throwing call leaves behind.  The only exception the engine can
    raise is the [RangeError] of [format] on an invalid date. *)
Inductive exception : Type :=
| RangeError.

Inductive completion (A : Type) : Type :=
| Return (a : A)
| Throw (e : exception).
Arguments Return {A} a.
Arguments Throw {A} e.

#[export] Instance completion_ret : MRet completion := @Return.

#[export] Instance completion_bind : MBind completion :=
  fun A B (k : A -> completion B) (c : completion A) =>
    match c with
    | Return a => k a
    | Throw e => Throw e
    end.

End JS.

Import JS.

(** ** The proleptic Gregorian calendar

    A [Date] object of the program always sits at local midnight, so it is
    modelled by the number of its civil day counted from 1970-01-01. The
    conversions are the usual era-based ones (400-year eras of 146097 days,
    years beginning in March). *)

Module Calendar.

Definition isLeapYearIndex (year : Z) : bool :=
  (year mod 400 =? 0) || ((year mod 4 =? 0) && negb (year mod 100 =? 0)).

Definition daysInMonth (year month : Z) : Z :=
  if month =? 2 then (if isLeapYearIndex year then 29 else 28)
  else if (month =? 4) || (month =? 6) || (month =? 9) || (month =? 11)
       then 30 else 31.

(** [validateDate] of [parseISO], with the month counted from 1. *)
Definition validateDate (year month day : Z) : bool :=
  (1 <=? month) && (month <=? 12) && (1 <=? day)
  && (day <=? daysInMonth year month).

(** Day of the era, from the year of the era, the month counted from March
    and the day of the month. *)
Definition doe_of (yoe mp d : Z) : Z :=
  yoe * 365 + yoe / 4 - yoe / 100 + ((153 * mp + 2) / 5 + d - 1).

Definition days_from_civil (year month day : Z) : Z :=
  let y := if month <=? 2 then year - 1 else year in
  let era := y / 400 in
  let yoe := y - era * 400 in
  let mp := if 2 <? month then month - 3 else month + 9 in
  era * 146097 + doe_of yoe mp day - 719468.

(** Year of the era, month from March and day of the month of a day of the
    era. *)
Definition split_doe (doe : Z) : Z * Z * Z :=
  let yoe := (doe - doe / 1460 + doe / 36524 - doe / 146096) / 365 in
  let doy := doe - (365 * yoe + yoe / 4 - yoe / 100) in
  let mp := (5 * doy + 2) / 153 in
  let d := doy - (153 * mp + 2) / 5 + 1 in
  (yoe, mp, d).

Definition civil_from_days (z : Z) : Z * Z * Z :=
  let z' := z + 719468 in
  let era := z' / 146097 in
  let doe := z' - era * 146097 in
  let '(yoe, mp, d) := split_doe doe in
  let m := if mp <? 10 then mp + 3 else mp - 9 in
  let y := yoe + era * 400 in
  (if m <=? 2 then y + 1 else y, m, d).

End Calendar.

Import Calendar.

(** ** The part of [date-fns] the engine calls *)

Module DateFns.

(** A [Date] object: [Invalid Date], or local midnight of a civil day. *)
Inductive Date : Type :=
| InvalidDate
| Day (n : Z).

Definition isValid (d : Date) : bool :=
  match d with
  | InvalidDate => false
  | Day _ => true
  end.

Definition digit (c : ascii) : option Z :=
  let n := Z.of_N (N_of_ascii c) in
  if (48 <=? n) && (n <=? 57) then Some (n - 48) else None.

Definition isHyphen (c : ascii) : bool := (N_of_ascii c =? 45)%N.

Definition digits2 (a b : ascii) : option Z :=
  x ← digit a; y ← digit b; Some (10 * x + y).

Definition digits4 (a b c d : ascii) : option Z :=
  x ← digits2 a b; y ← digits2 c d; Some (100 * x + y).

(** [parseISO] on the calendar-date form [yyyy-MM-dd], the form [formatDate]
    writes and the date field of the settings screen delivers: four digits
    of year, two of month, two of day, checked by [validateDate].  Every
    other string is taken as unparseable; the week, ordinal, basic and
    date-time forms of ISO 8601 that the library also reads are not
    modelled.  So a string that reads as a day here is one of the form
    [yyyy-MM-dd], and nothing is stated about what the library makes of the
    other forms. *)
Definition parse_fields (s : string) : option (Z * Z * Z) :=
  match s with
  | String y1 (String y2 (String y3 (String y4 (String h1
      (String m1 (String m2 (String h2
        (String d1 (String d2 EmptyString))))))))) =>
      if isHyphen h1 && isHyphen h2 then
        y ← digits4 y1 y2 y3 y4;
        m ← digits2 m1 m2;
        d ← digits2 d1 d2;
        Some (y, m, d)
      else None
  | _ => None
  end.

Definition parseISO (s : string) : Date :=
  match parse_fields s with
  | Some (y, m, d) =>
      if validateDate y m d then Day (days_from_civil y m d) else InvalidDate
  | None => InvalidDate
  end.

(** [addDays(date, amount)]: an invalid date stays invalid and a [NaN]
    amount gives an invalid date.  The bound of a [Date] at a hundred million
    days around 1970 is not modelled. *)
Definition addDays (d : Date) (amount : number) : Date :=
  match d, amount with
  | Day n, Num k => Day (n + k)
  | _, _ => InvalidDate
  end.

Definition subDays (d : Date) (amount : number) : Date :=
  addDays d (sub (Num 0) amount).

(** [differenceInDays(left, right)]: full days from [right] to [left], which
    between two midnights is the difference of the civil days; [NaN] when
    either date is invalid. *)
Definition differenceInDays (left right : Date) : number :=
  match left, right with
  | Day a, Day b => Num (a - b)
  | _, _ => NaN
  end.

Definition digit_char (n : Z) : ascii := ascii_of_N (Z.to_N (48 + n)).

(** [Math.abs(n).toString()] for a non-negative integer. *)
Fixpoint toString_aux (fuel : nat) (n : Z) (acc : string) : string :=
  match fuel with
  | O => acc
  | S fuel' =>
      let acc' := String (digit_char (n mod 10)) acc in
      if n <? 10 then acc' else toString_aux fuel' (n / 10) acc'
  end.

Definition toString (n : Z) : string :=
  toString_aux (S (Z.to_nat (Z.log2 n))) n EmptyString.

(** [str.padStart(targetLength, "0")] *)
Definition padStart (targetLength : nat) (s : string) : string :=
  String.concat EmptyString
    (replicate (targetLength - String.length s) "0"%string) +:+ s.

(** [addLeadingZeros(number, targetLength)] for a non-negative number. *)
Definition addLeadingZeros (n : Z) (targetLength : nat) : string :=
  padStart targetLength (toString n).

(** The text of a valid date under the pattern [yyyy-MM-dd].  The year
    token prints year 0 and the years before it as 1, 2, ... (years BC). *)
Definition isoDate (n : Z) : string :=
  let '(signedYear, month, day) := civil_from_days n in
  let year := if 0 <? signedYear then signedYear else 1 - signedYear in
  addLeadingZeros year 4 +:+ "-" +:+ addLeadingZeros month 2
    +:+ "-" +:+ addLeadingZeros day 2.

(** [format(date, 'yyyy-MM-dd')], which throws a [RangeError] on an invalid
    date. *)
Definition format_yyyy_MM_dd (d : Date) : completion string :=
  match d with
  | InvalidDate => Throw RangeError
  | Day n => Return (isoDate n)
  end.

(** The civil days whose text has a four-digit year that reads back as the
    same year: 0001-01-01 to 9999-12-31. *)
Definition firstIsoDay : Z := Eval vm_compute in days_from_civil 1 1 1.
Definition lastIsoDay : Z := Eval vm_compute in days_from_civil 9999 12 31.

End DateFns.

Import DateFns.

(** ** [types.ts] *)

Inductive FlowIntensity : Type := escasso | leve | moderado | intenso.

Inductive CyclePhaseType : Type := menstrual | folicular | ovulatoria | lutea.

Inductive AppTheme : Type := rose | sky | emerald | violet | midnight.

Record DayLog : Type := mkDayLog {
  date : string;
  isPeriod : bool;
  intensity : option FlowIntensity;
  symptoms : list string;
  moods : list string;
  notes : option string;
  medicalNotes : option string;
  waterIntake : option number;
  sleepHours : option number
}.

Module UserSettings.
Record t : Type := mk {
  userName : option string;
  avgCycleLength : number;
  avgPeriodLength : number;
  lastPeriodStartManual : option string;
  theme : option AppTheme
}.
End UserSettings.

Module CycleStats.
Record t : Type := mk {
  avgCycleLength : number;
  avgPeriodLength : number;
  lastPeriodStart : option string;
  nextPeriodDate : option string;
  ovulationDate : option string;
  fertileWindow : list string;
  currentDayOfCycle : option number
}.
End CycleStats.

(** [Record<string, DayLog>]: the log collection, keyed by date string. *)
Abbreviation Logs := (gmap string DayLog).

(** ** [utils/dateUtils.ts] *)

Definition formatDate (d : Date) : completion string := format_yyyy_MM_dd d.

Definition getCyclePhase (dayOfCycle : number) (stats : CycleStats.t)
  : CyclePhaseType :=
  let avgPeriodLength := CycleStats.avgPeriodLength stats in
  let avgCycleLength := CycleStats.avgCycleLength stats in
  if le dayOfCycle avgPeriodLength then menstrual
  else
    let ovulationDay := sub avgCycleLength (Num 14) in
    if lt dayOfCycle (sub ovulationDay (Num 2)) then folicular
    else if le dayOfCycle (add ovulationDay (Num 1)) then ovulatoria
    else lutea.

(** [a.localeCompare(b)]: on date strings, which hold digits and hyphens
    only, the collation order is the order of the character codes. *)
Definition localeCompare (a b : string) : comparison := String.compare a b.

(** The order the comparator [(a, b) => a.date.localeCompare(b.date)] sorts
    by. *)
Definition by_date (a b : DayLog) : Prop :=
  localeCompare (date a) (date b) <> Gt.

#[global] Instance by_date_dec : RelDecision by_date.
Proof.
  intros a b. unfold by_date.
  destruct (localeCompare (date a) (date b));
    [left | left | right]; congruence.
Defined.

(** [Object.values(logs).filter(log => log.isPeriod).sort(...)].  The order
    in which [Object.values] lists the entries does not matter: they are
    sorted by date, and only their dates are read afterwards. *)
Definition periodDays (logs : Logs) : list DayLog :=
  merge_sort by_date (List.filter isPeriod (map snd (map_to_list logs))).

(** The two arrays the grouping loop of [calculateCycleStats] builds. *)
Record grouping : Type := mkGrouping {
  periods : list (list string);
  currentPeriod : list string
}.

(** [if (currentPeriod.length > 0) periods.push(currentPeriod)] *)
Definition push_current (g : grouping) : list (list string) :=
  if (0 <? length (currentPeriod g))%nat
  then periods g ++ [currentPeriod g]
  else periods g.

(** One turn of the loop, on the date of [periodDays[i]], with [prev] the
    date of [periodDays[i - 1]] when [i > 0]. *)
Definition group_step (prev : option string) (d : string) (g : grouping)
  : grouping :=
  let current := parseISO d in
  let contiguous :=
    match prev with
    | Some p => strict_eq (differenceInDays current (parseISO p)) (Num 1)
    | None => false
    end in
  if contiguous
  then mkGrouping (periods g) (currentPeriod g ++ [d])
  else mkGrouping (push_current g) [d].

Fixpoint group_loop (prev : option string) (days : list string) (g : grouping)
  : grouping :=
  match days with
  | [] => g
  | d :: rest => group_loop (Some d) rest (group_step prev d g)
  end.

(** The array [periods] after the loop and the final push. *)
Definition groupPeriods (days : list string) : list (list string) :=
  push_current (group_loop None days (mkGrouping [] [])).

(** [parseISO(p[0])]; a group is never empty, and the model reads a missing
    first element as an invalid date. *)
Definition parseFirst (p : list string) : Date :=
  match p with
  | d :: _ => parseISO d
  | [] => InvalidDate
  end.

(** The array [cycleIntervals]: the days from each group's start to the next
    group's start. *)
Fixpoint cycleIntervals (ps : list (list string)) : list number :=
  match ps with
  | p0 :: ((p1 :: _) as rest) =>
      differenceInDays (parseFirst p1) (parseFirst p0) :: cycleIntervals rest
  | _ => []
  end.

(** The three [let] variables of [calculateCycleStats] when the validity test
    of the anchor is reached. *)
Record Baseline : Type := mkBaseline {
  base_avgCycleLength : number;
  base_avgPeriodLength : number;
  base_lastPeriodStart : option string
}.

Definition baseline (logs : Logs) (settings : option UserSettings.t)
  : Baseline :=
  let days := periodDays logs in
  let avgCycleLength :=
    or_number (UserSettings.avgCycleLength <$> settings) (Num 28) in
  let avgPeriodLength :=
    or_number (UserSettings.avgPeriodLength <$> settings) (Num 5) in
  let lastPeriodStart :=
    or_null (settings ≫= UserSettings.lastPeriodStartManual) in
  if (0 <? length days)%nat then
    let ps := groupPeriods (map date days) in
    let avgCycleLength' :=
      if (1 <? length ps)%nat
      then let intervals := cycleIntervals ps in
           round_div (sum intervals) (length intervals)
      else avgCycleLength in
    let avgPeriodLength' :=
      round_div (sum (map (fun p => Num (Z.of_nat (length p))) ps))
                (length ps) in
    mkBaseline avgCycleLength' avgPeriodLength' (last ps ≫= head)
  else mkBaseline avgCycleLength avgPeriodLength lastPeriodStart.

(** [!lastPeriodStart || !isValid(parseISO(lastPeriodStart))] *)
Definition anchor_unusable (lastPeriodStart : option string) : bool :=
  match lastPeriodStart with
  | Some s => negb (truthy_string s) || negb (isValid (parseISO s))
  | None => true
  end.

(** [calculateCycleStats(logs, settings)], with the civil day that
    [startOfToday()] reads from the clock as the argument [today]. *)
Definition calculateCycleStats (logs : Logs) (settings : option UserSettings.t)
    (today : Z) : completion CycleStats.t :=
  let b := baseline logs settings in
  let avgCycleLength := base_avgCycleLength b in
  let avgPeriodLength := base_avgPeriodLength b in
  match base_lastPeriodStart b with
  | Some lastPeriodStart =>
      if anchor_unusable (Some lastPeriodStart) then
        mret (CycleStats.mk avgCycleLength avgPeriodLength
                None None None [] None)
      else
        nextPeriodDate ←
          formatDate (addDays (parseISO lastPeriodStart) avgCycleLength);
        let ovulationDateObj := subDays (parseISO nextPeriodDate) (Num 14) in
        ovulationDate ← formatDate ovulationDateObj;
        fertileWindow ←
          mapM (fun i => formatDate (addDays ovulationDateObj (Num i)))
               [-3; -2; -1; 0; 1];
        let currentDayOfCycle :=
          add (differenceInDays (Day today) (parseISO lastPeriodStart))
              (Num 1) in
        mret (CycleStats.mk avgCycleLength avgPeriodLength
                (Some lastPeriodStart) (Some nextPeriodDate)
                (Some ovulationDate) fertileWindow
                (if gt currentDayOfCycle (Num 0)
                 then Some (add (rem (sub currentDayOfCycle (Num 1))
                                     avgCycleLength) (Num 1))
                 else None))
  | None =>
      mret (CycleStats.mk avgCycleLength avgPeriodLength
              None None None [] None)
  end.

(** ** [App.tsx] *)

(** The memo [currentPhase]: the phase of today's day of cycle. *)
Definition currentPhase (stats : CycleStats.t) : option CyclePhaseType :=
  match CycleStats.currentDayOfCycle stats with
  | None => None
  | Some n => Some (getCyclePhase n stats)
  end.

Record DayStatus : Type := mkDayStatus {
  isMenstruation : option bool;
  isPredictedMenstruation : bool;
  isOvulation : bool;
  isFertile : bool;
  log : option DayLog;
  dKey : string;
  phase : option CyclePhaseType;
  dayOfCycle : option number
}.

(** [a === b] between a string or [null] and a string. *)
Definition same_date (a : option string) (b : string) : bool :=
  match a with
  | Some s => String.eqb s b
  | None => false
  end.

(** [getDayStatus(day)], with the state [logs] and the memo [stats] it closes
    over as arguments. *)
Definition getDayStatus (logs : Logs) (stats : CycleStats.t) (day : Date)
  : completion DayStatus :=
  dKey ← formatDate day;
  let log := logs !! dKey in
  let isMenstruation := isPeriod <$> log in
  let isPredictedMenstruation :=
    same_date (CycleStats.nextPeriodDate stats) dKey in
  let isOvulation := same_date (CycleStats.ovulationDate stats) dKey in
  let isFertile :=
    existsb (String.eqb dKey) (CycleStats.fertileWindow stats) in
  let dayOfCycle :=
    match CycleStats.lastPeriodStart stats with
    | Some s =>
        if truthy_string s then
          let diff := add (differenceInDays day (parseISO s)) (Num 1) in
          if gt diff (Num 0)
          then Some (add (rem (sub diff (Num 1))
                              (CycleStats.avgCycleLength stats)) (Num 1))
          else None
        else None
    | None => None
    end in
  let phase :=
    match dayOfCycle with
    | Some n => if truthy n then Some (getCyclePhase n stats) else None
    | None => None
    end in
  mret (mkDayStatus isMenstruation isPredictedMenstruation isOvulation
          isFertile log dKey phase dayOfCycle).

(** ** Vocabulary of the statements *)

(** The settings record with one field replaced, as the spread
    [{...prev, field: value}] of the settings form builds it. *)
Definition withCycleLength (s : UserSettings.t) (n : number)
  : UserSettings.t :=
  UserSettings.mk (UserSettings.userName s) n (UserSettings.avgPeriodLength s)
    (UserSettings.lastPeriodStartManual s) (UserSettings.theme s).

Definition withPeriodLength (s : UserSettings.t) (n : number)
  : UserSettings.t :=
  UserSettings.mk (UserSettings.userName s) (UserSettings.avgCycleLength s) n
    (UserSettings.lastPeriodStartManual s) (UserSettings.theme s).

Definition withManualStart (s : UserSettings.t) (a : option string)
  : UserSettings.t :=
  UserSettings.mk (UserSettings.userName s) (UserSettings.avgCycleLength s)
    (UserSettings.avgPeriodLength s) a (UserSettings.theme s).

(** The initial settings of the application. *)
Definition defaultSettings : UserSettings.t :=
  UserSettings.mk None (Num 28) (Num 5) None None.

Definition manualSettings (anchor : string) : UserSettings.t :=
  withManualStart defaultSettings (Some anchor).

(** The stats the engine returns when no anchor is usable. *)
Definition noAnchorStats (avgCycleLength avgPeriodLength : number)
  : CycleStats.t :=
  CycleStats.mk avgCycleLength avgPeriodLength None None None [] None.

(** The stats the engine returns on day [today] with the usable anchor [s] on
    day [a], the cycle length [l] and the next period read back as day
    [next]. *)
Definition anchoredStats (avgPeriodLength : number) (today : Z) (s : string)
    (a l next : Z) : CycleStats.t :=
  CycleStats.mk (Num l) avgPeriodLength
    (Some s) (Some (isoDate (a + l))) (Some (isoDate (next - 14)))
    (map (fun i => isoDate (next - 14 + i)) [-3; -2; -1; 0; 1])
    (if 0 <? today - a + 1
     then Some (add (rem (Num (today - a)) (Num l)) (Num 1))
     else None).

(** A result of the engine with the one field that reads the clock blanked. *)
Definition withoutToday (c : completion CycleStats.t)
  : completion CycleStats.t :=
  st ← c;
  mret (CycleStats.mk (CycleStats.avgCycleLength st)
          (CycleStats.avgPeriodLength st) (CycleStats.lastPeriodStart st)
          (CycleStats.nextPeriodDate st) (CycleStats.ovulationDate st)
          (CycleStats.fertileWindow st) None).

(** The data model of the log collection: every entry is filed under its own
    date, and that date is a valid calendar date. *)
Definition wf_logs (logs : Logs) : Prop :=
  map_Forall (fun k l => date l = k /\ isValid (parseISO k) = true) logs.

(** A log entry of a period day, as the day dialog saves it when nothing but
    the period switch is touched. *)
Definition periodLog (d : string) : DayLog :=
  mkDayLog d true (Some moderado) [] [] (Some ""%string) (Some ""%string)
    (Some (Num 0)) (Some (Num 8)).

Definition logsOf (days : list string) : Logs :=
  list_to_map (map (fun d => (d, periodLog d)) days).

(** Period days 2024-01-01..03 and 2024-01-29..2024-02-02. *)
Definition januaryLogs : Logs :=
  logsOf ["2024-01-29"; "2024-01-01"; "2024-02-02"; "2024-01-02";
          "2024-01-03"; "2024-01-30"; "2024-01-31"; "2024-02-01"]%string.

(** The stats of [januaryLogs] on 2024-02-19. *)
Definition januaryStats : CycleStats.t :=
  CycleStats.mk (Num 28) (Num 4) (Some "2024-01-29"%string)
    (Some "2024-02-26"%string) (Some "2024-02-12"%string)
    ["2024-02-09"; "2024-02-10"; "2024-02-11"; "2024-02-12";
     "2024-02-13"]%string
    (Some (Num 22)).

(** Period days 2024-03-01, 2024-03-02 and 2024-03-04. *)
Definition marchLogs : Logs :=
  logsOf ["2024-03-04"; "2024-03-01"; "2024-03-02"]%string.

(** Two period entries for 2024-01-01, one of them filed under the key of the
    next day. *)
Definition misfiledLogs : Logs :=
  {[ "2024-01-01"%string := periodLog "2024-01-01";
     "2024-01-02"%string := periodLog "2024-01-01" ]}.

(** The code of a character, as an integer. *)
Definition code (c : ascii) : Z := Z.of_N (N_of_ascii c).

(** [a] and [b] are valid dates and [a] is the earlier one. *)
Definition earlier (a b : string) : Prop :=
  exists x y, parseISO a = Day x /\ parseISO b = Day y /\ x < y.

Definition gap2 (x y : Z) : Prop := x + 2 <= y.

(** What the grouping loop maintains once it has seen the period day [p]:
    the open group is not empty, and the groups start on valid days at least
    two days apart, the last of them not after [p]. *)
Definition grouped (p : string) (g : grouping) : Prop :=
  currentPeriod g <> [] /\
  exists zs z zp,
    map parseFirst (periods g ++ [currentPeriod g]) = map Day zs /\
    Sorted gap2 zs /\ last zs = Some z /\ parseISO p = Day zp /\ z <= zp.

(** ** More of [App.tsx] *)

(** [handleSaveLog(log)]: the new state of [logs], [{...prev, [log.date]:
    log}]. *)
Definition handleSaveLog (logs : Logs) (log : DayLog) : Logs :=
  <[date log := log]> logs.

(** [handleDeleteLog(date)]: the new state of [logs], a copy without the key
    [date]. *)
Definition handleDeleteLog (logs : Logs) (d : string) : Logs :=
  delete d logs.


(** The memo [nextPeriodIn], with the civil day that [startOfToday()] reads
    from the clock as the argument [today]. *)
Definition nextPeriodIn (stats : CycleStats.t) (today : Z) : option number :=
  match CycleStats.nextPeriodDate stats with
  | Some d =>
      if truthy_string d
      then Some (differenceInDays (parseISO d) (Day today))
      else None
  | None => None
  end.

(** ** The month grid of [utils/dateUtils.ts] *)

(** [date.getDay()], 0 for Sunday: day 0, 1970-01-01, was a Thursday. *)
Definition getDay (n : Z) : Z := (n + 4) mod 7.

(** [startOfMonth] and [endOfMonth] of a valid date, as civil days. *)
Definition startOfMonth (n : Z) : Z :=
  let '(y, m, _) := civil_from_days n in days_from_civil y m 1.

Definition endOfMonth (n : Z) : Z :=
  let '(y, m, _) := civil_from_days n in
  days_from_civil y m (daysInMonth y m).

(** [startOfWeek] and [endOfWeek] without options: weeks start on Sunday. *)
Definition startOfWeek (n : Z) : Z := n - getDay n.

Definition endOfWeek (n : Z) : Z := n + (6 - getDay n).

(** [eachDayOfInterval({ start, end })] for [start <= end]: every day from
    [start] to [end], both included. *)
Definition eachDayOfInterval (start finish : Z) : list Date :=
  Day <$> seqZ start (finish - start + 1).

(** [getCalendarDays(currentDate)] for a valid [currentDate], the only kind
    the application holds: [new Date()] moved by [addMonths] and
    [subMonths]. *)
Definition getCalendarDays (currentDate : Z) : list Date :=
  let start := startOfWeek (startOfMonth currentDate) in
  let finish := endOfWeek (endOfMonth currentDate) in
  eachDayOfInterval start finish.

(** [isSameMonth(day, currentDate)] on valid dates. *)
Definition isSameMonth (n1 n2 : Z) : bool :=
  let '(y1, m1, _) := civil_from_days n1 in
  let '(y2, m2, _) := civil_from_days n2 in
  (y1 =? y2) && (m1 =? m2).

(** ** The day dialog, [components/DayModal.tsx] *)

Module DayModal.

(** The state variables of the dialog. *)
Record state : Type := mkState {
  isPeriod : bool;
  intensity : FlowIntensity;
  selectedSymptoms : list string;
  selectedMoods : list string;
  notes : string;
  medicalNotes : string;
  water : number;
  sleep : number
}.

(** Their initial values, [existingLog?.field ?? fallback]. *)
Definition init (existingLog : option DayLog) : state :=
  match existingLog with
  | Some (mkDayLog _ p i s m n mn w sl) =>
      mkState p (default moderado i) s m (default ""%string n)
        (default ""%string mn) (default (Num 0) w) (default (Num 8) sl)
  | None => mkState false moderado [] [] ""%string ""%string (Num 0) (Num 8)
  end.

(** [handleToggle(list, item, setter)]: the value handed to [setter]. *)
Definition handleToggle (list : Datatypes.list string) (item : string)
  : Datatypes.list string :=
  if bool_decide (item ∈ list)
  then filter (fun i => i <> item) list
  else list ++ [item].

(** The entry handed to [onSave] by the save button, for the dialog's
    [date]. *)
Definition onSave (date : string) (st : state) : DayLog :=
  mkDayLog date (isPeriod st)
    (if isPeriod st then Some (intensity st) else None)
    (selectedSymptoms st) (selectedMoods st)
    (Some (notes st)) (Some (medicalNotes st))
    (Some (water st)) (Some (sleep st)).

End DayModal.

(** ** Vocabulary of the further properties *)

(** The period days the grouping loop has dealt with so far, in order. *)
Definition flat (g : grouping) : list string :=
  concat (periods g) ++ currentPeriod g.

(** What the grouping loop maintains, on valid days in increasing order, once
    it has seen the period day [p]: the open group is the unbroken run of
    days from some day [c] to [p], and every day of a closed group lies at
    least two days before [c]. *)
Definition open_run (p : string) (g : grouping) (c : Z) : Prop :=
  currentPeriod g <> [] /\
  map parseISO (currentPeriod g)
    = map Day (seqZ c (Z.of_nat (length (currentPeriod g)))) /\
  parseISO p = Day (c + Z.of_nat (length (currentPeriod g)) - 1) /\
  Forall (fun q => exists zq, parseISO q = Day zq /\ zq + 2 <= c)
         (concat (periods g)).

(** The logs hold a period entry under the date [d]. *)
Definition hasPeriodEntry (logs : Logs) (d : string) : Prop :=
  exists l, logs !! d = Some l /\ isPeriod l = true.

(** Day [z] is logged as a period day. *)
Definition isPeriodDay (logs : Logs) (z : Z) : Prop :=
  exists d, hasPeriodEntry logs d /\ parseISO d = Day z.

(** The order of [localeCompare] on the date strings themselves. *)
Definition date_le (a b : string) : Prop := localeCompare a b <> Gt.

(** The place of a phase in the order of [CyclePhaseType]. *)
Definition phaseIndex (p : CyclePhaseType) : nat :=
  match p with
  | menstrual => 0
  | folicular => 1
  | ovulatoria => 2
  | lutea => 3
  end.

(** An entry without the period switch, for 2024-02-10. *)
Definition tiredLog : DayLog :=
  DayModal.onSave "2024-02-10"
    (DayModal.mkState false moderado ["Fadiga"]%string ["Calma"]%string
       "dormi mal"%string ""%string (Num 3) (Num 6)).

(** The dialog state behind [periodLog]: nothing touched but the period
    switch. *)
Definition periodState : DayModal.state :=
  DayModal.mkState true moderado [] [] ""%string ""%string (Num 0) (Num 8).

(** 2024-02-19, the day the January stats are taken on. *)
Definition february19 : Z := Eval vm_compute in days_from_civil 2024 2 19.

(** 2024-01-29, the anchor of the January stats. *)
Definition january29 : Z := Eval vm_compute in days_from_civil 2024 1 29.

(** * Properties *)

(** ** The calendar *)

Lemma isLeapYearIndex_true year :
  isLeapYearIndex year = true <->
  year mod 400 = 0 \/ (year mod 4 = 0 /\ year mod 100 <> 0).
Proof.
  unfold isLeapYearIndex.
  rewrite orb_true_iff, andb_true_iff, negb_true_iff, !Z.eqb_eq, Z.eqb_neq.
  reflexivity.
Qed.

Lemma isLeapYearIndex_false year :
  isLeapYearIndex year = false <->
  ~ (year mod 400 = 0 \/ (year mod 4 = 0 /\ year mod 100 <> 0)).
Proof. rewrite <- isLeapYearIndex_true. symmetry. apply not_true_iff_false. Qed.

Lemma validateDate_true year month day :
  validateDate year month day = true <->
  1 <= month <= 12 /\ 1 <= day <= daysInMonth year month.
Proof.
  unfold validateDate. rewrite !andb_true_iff, !Z.leb_le. lia.
Qed.

(** The length of a month, month by month, with the leap-year test spelled
    out in arithmetic. *)
Lemma daysInMonth_cases year month :
  1 <= month <= 12 ->
  (month = 2 /\ daysInMonth year month = 29 /\
   (year mod 400 = 0 \/ (year mod 4 = 0 /\ year mod 100 <> 0))) \/
  (month = 2 /\ daysInMonth year month = 28 /\
   ~ (year mod 400 = 0 \/ (year mod 4 = 0 /\ year mod 100 <> 0))) \/
  ((month = 4 \/ month = 6 \/ month = 9 \/ month = 11) /\
   daysInMonth year month = 30) \/
  ((month = 1 \/ month = 3 \/ month = 5 \/ month = 7 \/ month = 8 \/
    month = 10 \/ month = 12) /\ daysInMonth year month = 31).
Proof.
  intros H. unfold daysInMonth.
  assert (month = 1 \/ month = 2 \/ month = 3 \/ month = 4 \/ month = 5 \/
          month = 6 \/ month = 7 \/ month = 8 \/ month = 9 \/ month = 10 \/
          month = 11 \/ month = 12) as Hm by lia.
  destruct (isLeapYearIndex year) eqn:Hleap;
    [apply isLeapYearIndex_true in Hleap
    |apply isLeapYearIndex_false in Hleap];
    repeat (destruct Hm as [->|Hm]; [simpl; tauto|]); subst; simpl; tauto.
Qed.

(** The day count in closed form: the eras fold into the usual count of leap
    years. *)
Lemma days_from_civil_closed year month day :
  days_from_civil year month day =
  let y := if month <=? 2 then year - 1 else year in
  let mp := if 2 <? month then month - 3 else month + 9 in
  365 * y + y / 4 - y / 100 + y / 400 + (153 * mp + 2) / 5 + day - 719469.
Proof.
  unfold days_from_civil, doe_of. cbv zeta.
  generalize (if month <=? 2 then year - 1 else year) as y.
  generalize (if 2 <? month then month - 3 else month + 9) as mp.
  intros mp y. Z.div_mod_to_equations. lia.
Qed.

(** Splits every disjunction and conjunction among the hypotheses. *)
Ltac split_cases :=
  repeat match goal with
         | H : _ \/ _ |- _ => destruct H as [H|H]
         | H : _ /\ _ |- _ => destruct H
         end.

(** Closes a goal of integer arithmetic with quotients by constants. *)
Ltac div_lia := Z.div_mod_to_equations; lia.

(** [civil_from_days] yields a valid date, the one [days_from_civil] counts
    back to the same day. *)
Lemma civil_from_days_spec n :
  let '(y, m, d) := civil_from_days n in
  validateDate y m d = true /\ days_from_civil y m d = n.
Proof.
  unfold civil_from_days, split_doe. cbv zeta.
  remember (n + 719468) as z eqn:Hz.
  remember (z / 146097) as era eqn:Hera.
  remember (z - era * 146097) as doe eqn:Hdoe.
  remember ((doe - doe / 1460 + doe / 36524 - doe / 146096) / 365)
    as yoe eqn:Hyoe.
  remember (doe - (365 * yoe + yoe / 4 - yoe / 100)) as doy eqn:Hdoy.
  remember ((5 * doy + 2) / 153) as mp eqn:Hmp.
  assert (0 <= doe < 146097) as Bdoe by (subst doe era; div_lia).
  clear Hera.
  assert (0 <= yoe <= 399 /\ 0 <= doy <= 365 /\
          (doy = 365 -> (yoe + 1) mod 4 = 0 /\
                        ((yoe + 1) mod 100 <> 0 \/ yoe = 399))) as Byoe
    by (subst doy yoe; div_lia).
  clear Hyoe.
  assert (mp = 0 \/ mp = 1 \/ mp = 2 \/ mp = 3 \/ mp = 4 \/ mp = 5 \/
          mp = 6 \/ mp = 7 \/ mp = 8 \/ mp = 9 \/ mp = 10 \/ mp = 11)
    as Bmp by (subst mp; div_lia).
  split.
  - apply validateDate_true.
    repeat (destruct Bmp as [Bmp|Bmp]); rewrite Bmp in *; simpl;
      match goal with
      | |- context [daysInMonth ?y ?m] =>
          destruct (daysInMonth_cases y m)
            as [(Hm & -> & Hleap)|[(Hm & -> & Hleap)|[(Hm & ->)|(Hm & ->)]]];
          [lia|..]
      end; try lia; div_lia.
  - rewrite days_from_civil_closed. cbv zeta.
    repeat (destruct Bmp as [Bmp|Bmp]); rewrite Bmp in *; simpl.
    all: div_lia.
Qed.

(** Later dates have larger day counts. *)
Lemma days_from_civil_lt y1 m1 d1 y2 m2 d2 :
  validateDate y1 m1 d1 = true ->
  validateDate y2 m2 d2 = true ->
  y1 < y2 \/ (y1 = y2 /\ (m1 < m2 \/ (m1 = m2 /\ d1 < d2))) ->
  days_from_civil y1 m1 d1 < days_from_civil y2 m2 d2.
Proof.
  rewrite !validateDate_true, !days_from_civil_closed. cbv zeta.
  intros [Hm1 Hd1] [Hm2 Hd2] Hlt.
  pose proof (daysInMonth_cases y1 m1 Hm1) as C1.
  pose proof (daysInMonth_cases y2 m2 Hm2) as C2.
  split_cases;
    repeat match goal with
           | H : daysInMonth _ _ = _ |- _ => rewrite H in *; clear H
           end;
    subst; simpl; try lia; div_lia.
Qed.

(** ** The text of a date *)

Lemma digit_digit_char k : 0 <= k <= 9 -> digit (digit_char k) = Some k.
Proof.
  intros H.
  assert (k = 0 \/ k = 1 \/ k = 2 \/ k = 3 \/ k = 4 \/ k = 5 \/ k = 6 \/
          k = 7 \/ k = 8 \/ k = 9) as Hk by lia.
  repeat (destruct Hk as [->|Hk]; [reflexivity|]). subst. reflexivity.
Qed.

Lemma toString_aux_S fuel n acc :
  toString_aux (S fuel) n acc =
  if n <? 10 then String (digit_char (n mod 10)) acc
  else toString_aux fuel (n / 10) (String (digit_char (n mod 10)) acc).
Proof. reflexivity. Qed.

(** The decimal digits of a number below 10000. *)
Lemma toString_below_10000 n :
  0 <= n < 10000 ->
  toString n =
  if n <? 10 then String (digit_char n) EmptyString
  else if n <? 100 then
    String (digit_char (n / 10)) (String (digit_char (n mod 10)) EmptyString)
  else if n <? 1000 then
    String (digit_char (n / 100)) (String (digit_char (n / 10 mod 10))
      (String (digit_char (n mod 10)) EmptyString))
  else
    String (digit_char (n / 1000)) (String (digit_char (n / 100 mod 10))
      (String (digit_char (n / 10 mod 10))
         (String (digit_char (n mod 10)) EmptyString))).
Proof.
  intros Hn. unfold toString. rewrite toString_aux_S.
  destruct (Z.ltb_spec n 10) as [H1|H1].
  { rewrite Z.mod_small by lia. reflexivity. }
  assert (3 <= Z.log2 n) as Hlog
    by (change 3 with (Z.log2 8); apply Z.log2_le_mono; lia).
  destruct (Z.to_nat (Z.log2 n)) as [|f1] eqn:Hf1; [lia|].
  rewrite toString_aux_S.
  destruct (Z.ltb_spec n 100) as [H2|H2].
  { destruct (Z.ltb_spec (n / 10) 10) as [_|H]; [|div_lia].
    rewrite (Z.mod_small (n / 10)) by div_lia. reflexivity. }
  destruct (Z.ltb_spec (n / 10) 10) as [H|_]; [div_lia|].
  assert (6 <= Z.log2 n) as Hlog2
    by (change 6 with (Z.log2 64); apply Z.log2_le_mono; lia).
  destruct f1 as [|f2]; [lia|].
  rewrite toString_aux_S.
  replace (n / 10 / 10) with (n / 100) by div_lia.
  destruct (Z.ltb_spec n 1000) as [H3|H3].
  { destruct (Z.ltb_spec (n / 100) 10) as [_|H]; [|div_lia].
    rewrite (Z.mod_small (n / 100)) by div_lia. reflexivity. }
  destruct (Z.ltb_spec (n / 100) 10) as [H|_]; [div_lia|].
  assert (9 <= Z.log2 n) as Hlog3
    by (change 9 with (Z.log2 512); apply Z.log2_le_mono; lia).
  destruct f2 as [|f3]; [lia|].
  rewrite toString_aux_S.
  replace (n / 100 / 10) with (n / 1000) by div_lia.
  destruct (Z.ltb_spec (n / 1000) 10) as [_|H]; [|div_lia].
  rewrite (Z.mod_small (n / 1000)) by div_lia. reflexivity.
Qed.

Lemma addLeadingZeros_4 y :
  0 <= y <= 9999 ->
  exists a b c d,
    addLeadingZeros y 4 = String a (String b (String c (String d EmptyString)))
    /\ digits4 a b c d = Some y.
Proof.
  intros Hy. unfold addLeadingZeros. rewrite toString_below_10000 by lia.
  destruct (y <? 10) eqn:H1; [|destruct (y <? 100) eqn:H2;
                                 [|destruct (y <? 1000) eqn:H3]];
    do 4 eexists; (split; [reflexivity|]); unfold digits4, digits2;
    change (digit "0") with (Some 0);
    rewrite ?digit_digit_char by div_lia; simpl; f_equal; div_lia.
Qed.

Lemma addLeadingZeros_2 m :
  0 <= m <= 99 ->
  exists a b,
    addLeadingZeros m 2 = String a (String b EmptyString)
    /\ digits2 a b = Some m.
Proof.
  intros Hm. unfold addLeadingZeros. rewrite toString_below_10000 by lia.
  destruct (m <? 10) eqn:H1; [|destruct (m <? 100) eqn:H2; [|lia]];
    do 2 eexists; (split; [reflexivity|]); unfold digits2;
    change (digit "0") with (Some 0);
    rewrite ?digit_digit_char by div_lia; simpl; f_equal; div_lia.
Qed.

(** Between 0001-01-01 and 9999-12-31 the year has four digits. *)
Lemma civil_from_days_year n :
  firstIsoDay <= n <= lastIsoDay ->
  1 <= (civil_from_days n).1.1 <= 9999.
Proof.
  intros Hn. pose proof (civil_from_days_spec n) as H.
  destruct (civil_from_days n) as [[y m] d]. simpl.
  destruct H as [Hv Hd].
  destruct (Z.le_gt_cases y 0) as [Hy0|Hy0].
  { assert (n < days_from_civil 1 1 1) as Hlt.
    { rewrite <- Hd. apply days_from_civil_lt; [exact Hv|reflexivity|lia]. }
    change (days_from_civil 1 1 1) with firstIsoDay in Hlt. lia. }
  destruct (Z.le_gt_cases 10000 y) as [Hy1|Hy1].
  { assert (days_from_civil 9999 12 31 < n) as Hlt.
    { rewrite <- Hd. apply days_from_civil_lt; [reflexivity|exact Hv|lia]. }
    change (days_from_civil 9999 12 31) with lastIsoDay in Hlt. lia. }
  lia.
Qed.

(** Reading back what [format] wrote, for a date with a four-digit year. *)
Lemma parseISO_isoDate n :
  firstIsoDay <= n <= lastIsoDay -> parseISO (isoDate n) = Day n.
Proof.
  intros Hn. pose proof (civil_from_days_year n Hn) as Hy.
  pose proof (civil_from_days_spec n) as H.
  unfold parseISO, isoDate.
  destruct (civil_from_days n) as [[y m] d]. simpl in Hy.
  destruct H as [Hv Hd].
  destruct (Z.ltb_spec 0 y) as [_|?]; [|lia].
  pose proof Hv as Hv'. apply validateDate_true in Hv' as [Hm Hday].
  assert (daysInMonth y m <= 31) as Hdim
    by (unfold daysInMonth; repeat case_match; lia).
  destruct (addLeadingZeros_4 y) as (a & b & c & e & -> & Hy4); [lia|].
  destruct (addLeadingZeros_2 m) as (m1 & m2 & -> & Hm2); [lia|].
  destruct (addLeadingZeros_2 d) as (d1 & d2 & -> & Hd2); [lia|].
  cbv [String.append]. unfold parse_fields.
  change (isHyphen "-") with true. cbn [andb].
  rewrite Hy4, Hm2, Hd2. cbn [mbind option_bind]. rewrite Hv, Hd. reflexivity.
Qed.

Lemma parseISO_Day s n :
  parseISO s = Day n ->
  exists y m d, parse_fields s = Some (y, m, d) /\
                validateDate y m d = true /\ n = days_from_civil y m d.
Proof.
  unfold parseISO. destruct (parse_fields s) as [[[y m] d]|]; [|discriminate].
  destruct (validateDate y m d) eqn:Hv; [|discriminate].
  intros [= <-]. exists y, m, d. repeat split; assumption.
Qed.

Lemma isValid_Day d : isValid d = true -> exists n, d = Day n.
Proof. destruct d as [|n]; [discriminate|]. exists n. reflexivity. Qed.

Lemma parseISO_truthy s n : parseISO s = Day n -> truthy_string s = true.
Proof. destruct s; [discriminate|reflexivity]. Qed.

(** ** The order of date strings is the order of the days *)

Lemma digit_Some c k : digit c = Some k -> code c = 48 + k /\ 0 <= k <= 9.
Proof.
  unfold digit, code.
  destruct (Z.leb_spec 48 (Z.of_N (N_of_ascii c))); simpl; [|discriminate].
  destruct (Z.leb_spec (Z.of_N (N_of_ascii c)) 57); simpl; [|discriminate].
  intros [= <-]. lia.
Qed.

Lemma digits2_Some a b v :
  digits2 a b = Some v ->
  exists x y, code a = 48 + x /\ 0 <= x <= 9 /\ code b = 48 + y /\ 0 <= y <= 9
              /\ v = 10 * x + y.
Proof.
  unfold digits2. destruct (digit a) as [x|] eqn:Ha; [|discriminate].
  destruct (digit b) as [y|] eqn:Hb; [|discriminate].
  cbn [mbind option_bind]. intros [= <-].
  apply digit_Some in Ha, Hb. exists x, y. lia.
Qed.

Lemma isHyphen_true c : isHyphen c = true -> code c = 45.
Proof. unfold isHyphen, code. intros H%N.eqb_eq. rewrite H. reflexivity. Qed.

(** The ten characters of a string that [parse_fields] accepts. *)
Lemma parse_fields_Some s y m d :
  parse_fields s = Some (y, m, d) ->
  exists c1 c2 c3 c4 h1 c5 c6 h2 c7 c8 yh yl,
    s = String c1 (String c2 (String c3 (String c4 (String h1 (String c5
          (String c6 (String h2 (String c7 (String c8 EmptyString)))))))))
    /\ code h1 = 45 /\ code h2 = 45
    /\ digits2 c1 c2 = Some yh /\ digits2 c3 c4 = Some yl
    /\ y = 100 * yh + yl
    /\ digits2 c5 c6 = Some m /\ digits2 c7 c8 = Some d.
Proof.
  destruct s as [|c1 [|c2 [|c3 [|c4 [|h1 [|c5 [|c6 [|h2 [|c7 [|c8 [|? ?]]]]]]]]]]];
    try discriminate.
  unfold parse_fields, digits4.
  destruct (isHyphen h1) eqn:Hh1; [|discriminate].
  destruct (isHyphen h2) eqn:Hh2; [|discriminate].
  cbn [andb].
  destruct (digits2 c1 c2) as [yh|] eqn:Hyh; [|discriminate].
  destruct (digits2 c3 c4) as [yl|] eqn:Hyl; [|discriminate].
  destruct (digits2 c5 c6) as [m'|] eqn:Hm; [|discriminate].
  destruct (digits2 c7 c8) as [d'|] eqn:Hd; [|discriminate].
  cbn [andb mbind option_bind]. intros [= <- <- <-].
  exists c1, c2, c3, c4, h1, c5, c6, h2, c7, c8, yh, yl.
  repeat split; try assumption; apply isHyphen_true; assumption.
Qed.

Lemma compare_cons_Lt c1 s1 c2 s2 :
  String.compare (String c1 s1) (String c2 s2) = Lt ->
  code c1 < code c2 \/ (code c1 = code c2 /\ String.compare s1 s2 = Lt).
Proof.
  cbn [String.compare]. unfold Ascii.compare, code.
  rewrite <- N2Z.inj_compare.
  destruct (Z.compare_spec (Z.of_N (N_of_ascii c1)) (Z.of_N (N_of_ascii c2)));
    [right; split; assumption | left; assumption | discriminate].
Qed.

(** Two date strings in string order carry their fields in lexicographic
    order. *)
Lemma parse_fields_Lt s1 s2 y1 m1 d1 y2 m2 d2 :
  parse_fields s1 = Some (y1, m1, d1) ->
  parse_fields s2 = Some (y2, m2, d2) ->
  String.compare s1 s2 = Lt ->
  y1 < y2 \/ (y1 = y2 /\ (m1 < m2 \/ (m1 = m2 /\ d1 < d2))).
Proof.
  intros (a1 & a2 & a3 & a4 & g1 & a5 & a6 & g2 & a7 & a8 & yh1 & yl1 & -> &
          Hg1 & Hg2 & Ha12 & Ha34 & -> & Ha56 & Ha78)%parse_fields_Some
         (b1 & b2 & b3 & b4 & h1 & b5 & b6 & h2 & b7 & b8 & yh2 & yl2 & -> &
          Hh1 & Hh2 & Hb12 & Hb34 & -> & Hb56 & Hb78)%parse_fields_Some
         Hcmp.
  repeat match goal with
         | H : digits2 _ _ = Some _ |- _ =>
             apply digits2_Some in H as (? & ? & ? & ? & ? & ? & ?)
         end.
  subst.
  do 10 (apply compare_cons_Lt in Hcmp as [Hcmp|[? Hcmp]]; [lia|]).
  discriminate Hcmp.
Qed.

Lemma localeCompare_earlier a b :
  isValid (parseISO a) = true -> isValid (parseISO b) = true ->
  localeCompare a b <> Gt -> a <> b -> earlier a b.
Proof.
  intros [x Hx]%isValid_Day [y Hy]%isValid_Day Hle Hne.
  exists x, y. split; [exact Hx|]. split; [exact Hy|].
  apply parseISO_Day in Hx as (y1 & m1 & d1 & Hf1 & Hv1 & ->).
  apply parseISO_Day in Hy as (y2 & m2 & d2 & Hf2 & Hv2 & ->).
  apply days_from_civil_lt; [exact Hv1|exact Hv2|].
  apply (parse_fields_Lt a b); [exact Hf1|exact Hf2|].
  unfold localeCompare in Hle.
  destruct (String.compare a b) eqn:Hc; [|reflexivity|congruence].
  apply String.compare_eq_iff in Hc. congruence.
Qed.

(** ** The sorted period days *)

#[local] Instance by_date_total : Total by_date.
Proof.
  intros a b. unfold by_date, localeCompare.
  rewrite (String.compare_antisym (date b) (date a)).
  destruct (String.compare (date a) (date b)); simpl;
    [left|left|right]; congruence.
Qed.



Lemma NoDup_dates_filter (ls : list DayLog) :
  NoDup (map date ls) -> NoDup (map date (List.filter isPeriod ls)).
Proof.
  induction ls as [|l ls IH]; [intros _; constructor|].
  cbn [map List.filter]. intros [Hnot Hnd]%NoDup_cons.
  destruct (isPeriod l); [|exact (IH Hnd)].
  cbn [map]. apply NoDup_cons. split; [|exact (IH Hnd)].
  intros Hin. apply Hnot.
  apply list_elem_of_fmap in Hin as (l' & -> & Hl').
  apply list_elem_of_fmap. exists l'. split; [reflexivity|].
  apply list_elem_of_In, filter_In in Hl' as [Hl' _].
  apply list_elem_of_In. exact Hl'.
Qed.

Lemma wf_logs_values (logs : Logs) :
  wf_logs logs ->
  NoDup (map date (map snd (map_to_list logs))) /\
  Forall (fun l => isValid (parseISO (date l)) = true)
         (map snd (map_to_list logs)).
Proof.
  intros Hwf. split.
  - replace (map date (map snd (map_to_list logs)))
      with (map fst (map_to_list logs)).
    + apply NoDup_fst_map_to_list.
    + rewrite map_map. apply map_ext_in. intros [k l] Hin. simpl.
      apply list_elem_of_In, elem_of_map_to_list in Hin.
      symmetry. exact (proj1 (Hwf k l Hin)).
  - apply Forall_forall. intros l Hl.
    apply list_elem_of_fmap in Hl as ([k l'] & -> & Hin).
    apply elem_of_map_to_list in Hin. simpl.
    destruct (Hwf k l' Hin) as [-> Hv]. exact Hv.
Qed.

Lemma Sorted_by_date_earlier (ls : list DayLog) :
  Sorted by_date ls ->
  NoDup (map date ls) ->
  Forall (fun l => isValid (parseISO (date l)) = true) ls ->
  Sorted earlier (map date ls).
Proof.
  induction 1 as [|l ls Hs IH Hhd]; [constructor|].
  cbn [map]. intros [Hnot Hnd]%NoDup_cons [Hv Hvs]%Forall_cons.
  constructor; [exact (IH Hnd Hvs)|].
  destruct Hhd as [|l' ls' Hle]; constructor.
  apply Forall_cons in Hvs as [Hv' _].
  apply localeCompare_earlier; [exact Hv|exact Hv'|exact Hle|].
  intros Heq. apply Hnot. cbn [map]. rewrite Heq. apply list_elem_of_here.
Qed.

(** With well-formed logs the sorted period days are valid dates in strictly
    increasing order. *)
Lemma periodDays_sorted (logs : Logs) :
  wf_logs logs ->
  Sorted earlier (map date (periodDays logs)) /\
  Forall (fun d => isValid (parseISO d) = true) (map date (periodDays logs)).
Proof.
  intros Hwf. destruct (wf_logs_values logs Hwf) as [Hnd Hv].
  unfold periodDays.
  set (ls := List.filter isPeriod (map snd (map_to_list logs))).
  assert (NoDup (map date ls)) as Hnd' by exact (NoDup_dates_filter _ Hnd).
  assert (Forall (fun l => isValid (parseISO (date l)) = true) ls) as Hv'.
  { apply Forall_forall. intros l Hl.
    apply list_elem_of_In, filter_In in Hl as [Hl _].
    apply list_elem_of_In in Hl. revert l Hl. apply Forall_forall. exact Hv. }
  pose proof (merge_sort_Permutation by_date ls) as Hperm.
  assert (Forall (fun l => isValid (parseISO (date l)) = true)
                 (merge_sort by_date ls)) as Hv''
    by (rewrite Hperm; exact Hv').
  split.
  - apply Sorted_by_date_earlier.
    + apply Sorted_merge_sort. exact by_date_total.
    + rewrite Hperm. exact Hnd'.
    + exact Hv''.
  - apply Forall_fmap. exact Hv''.
Qed.

(** ** The grouping loop *)

Lemma strict_eq_false x y : strict_eq x (Num y) = false <-> x <> Num y.
Proof.
  destruct x as [z|]; simpl; [|split; [discriminate|reflexivity]].
  rewrite Z.eqb_neq. split; [congruence|]. intros H ->. exact (H eq_refl).
Qed.

Lemma group_loop_snoc prev days d g :
  group_loop prev (days ++ [d]) g =
  group_step (match last days with Some p => Some p | None => prev end) d
    (group_loop prev days g).
Proof.
  revert prev g. induction days as [|x days IH]; intros prev g; [reflexivity|].
  cbn [app group_loop]. rewrite IH, last_cons.
  destruct (last days); reflexivity.
Qed.

Lemma push_current_single ps d :
  push_current (mkGrouping ps [d]) = ps ++ [[d]].
Proof. reflexivity. Qed.

Lemma push_current_nonempty g :
  currentPeriod g <> [] -> push_current g = periods g ++ [currentPeriod g].
Proof.
  unfold push_current. destruct (currentPeriod g); [congruence|reflexivity].
Qed.

(** A day that does not follow the previous period day by exactly one day
    opens a group of its own. *)
Lemma groupPeriods_snoc_gap days d :
  (forall p, last days = Some p ->
             differenceInDays (parseISO d) (parseISO p) <> Num 1) ->
  groupPeriods (days ++ [d]) = groupPeriods days ++ [[d]].
Proof.
  intros Hgap. unfold groupPeriods. rewrite group_loop_snoc.
  unfold group_step.
  destruct (last days) as [p|] eqn:Hlast.
  - rewrite (proj2 (strict_eq_false _ 1) (Hgap p eq_refl)).
    apply push_current_single.
  - apply push_current_single.
Qed.

Lemma parseFirst_snoc cur d :
  cur <> [] -> parseFirst (cur ++ [d]) = parseFirst cur.
Proof. destruct cur; [congruence|reflexivity]. Qed.

Lemma Sorted_gap2_snoc zs z x :
  Sorted gap2 zs -> last zs = Some z -> z + 2 <= x -> Sorted gap2 (zs ++ [x]).
Proof.
  intros Hs Hlast Hx. apply Sorted_snoc; [exact Hs|].
  destruct zs as [|y zs] using rev_ind; [discriminate|].
  rewrite last_snoc in Hlast. injection Hlast as ->.
  constructor. exact Hx.
Qed.

Lemma group_step_first d :
  isValid (parseISO d) = true ->
  grouped d (group_step None d (mkGrouping [] [])).
Proof.
  intros [z Hz]%isValid_Day. split; [discriminate|].
  exists [z], z, z. cbn. rewrite Hz.
  repeat split; [repeat constructor|lia].
Qed.

Lemma group_step_grouped p d g :
  grouped p g -> earlier p d -> grouped d (group_step (Some p) d g).
Proof.
  intros (Hcur & zs & z & zp & Hstarts & Hsorted & Hlast & Hp & Hle)
         (x & y & Hp' & Hd & Hlt).
  rewrite Hp in Hp'. injection Hp' as <-.
  unfold group_step. rewrite Hd, Hp. cbn [differenceInDays strict_eq].
  destruct (Z.eqb_spec (y - zp) 1) as [Hone|Hgap].
  - split; [cbn; destruct (currentPeriod g); discriminate|].
    exists zs, z, y. cbn [periods currentPeriod].
    rewrite map_app in *. cbn [map] in *.
    rewrite (parseFirst_snoc _ _ Hcur).
    repeat split; [exact Hstarts|exact Hsorted|exact Hlast|exact Hd|lia].
  - split; [discriminate|].
    exists (zs ++ [y]), y, y. cbn [periods currentPeriod].
    rewrite (push_current_nonempty g Hcur), map_app, Hstarts.
    cbn [map parseFirst]. rewrite Hd, last_snoc, map_app.
    repeat split; [|lia].
    apply (Sorted_gap2_snoc zs z y Hsorted Hlast). lia.
Qed.

Lemma group_loop_grouped days p g :
  grouped p g -> Sorted earlier (p :: days) ->
  exists p', grouped p' (group_loop (Some p) days g).
Proof.
  revert p g. induction days as [|d days IH]; intros p g Hg Hs.
  - exists p. exact Hg.
  - cbn [group_loop]. apply Sorted_inv in Hs as [Hs Hhd].
    apply HdRel_inv in Hhd.
    exact (IH d _ (group_step_grouped p d g Hg Hhd) Hs).
Qed.

(** The groups of a non-empty, strictly increasing list of valid days start
    on valid days at least two days apart. *)
Lemma groupPeriods_starts days :
  days <> [] -> Sorted earlier days ->
  Forall (fun d => isValid (parseISO d) = true) days ->
  exists zs, map parseFirst (groupPeriods days) = map Day zs /\
             Sorted gap2 zs.
Proof.
  destruct days as [|d days]; [congruence|]. intros _ Hs Hv.
  apply Forall_cons in Hv as [Hd _].
  unfold groupPeriods. cbn [group_loop].
  destruct (group_loop_grouped days d _ (group_step_first d Hd) Hs)
    as (p' & Hcur & zs & z & zp & Hstarts & Hsorted & _).
  rewrite (push_current_nonempty _ Hcur). exists zs. split; assumption.
Qed.

Lemma cycleIntervals_gaps ps zs :
  map parseFirst ps = map Day zs -> Sorted gap2 zs ->
  Forall (fun n => exists k, n = Num k /\ 2 <= k) (cycleIntervals ps) /\
  length (cycleIntervals ps) = pred (length ps).
Proof.
  revert zs. induction ps as [|p0 ps IH]; intros zs Hmap Hs.
  - split; [constructor|reflexivity].
  - destruct ps as [|p1 ps]; [split; [constructor|reflexivity]|].
    destruct zs as [|z0 [|z1 zs]]; try discriminate.
    injection Hmap as H0 H1 Hrest.
    apply Sorted_inv in Hs as [Hs Hhd]. apply HdRel_inv in Hhd.
    destruct (IH (z1 :: zs)) as [IHf IHl];
      [cbn [map]; rewrite H1, Hrest; reflexivity|exact Hs|].
    change (cycleIntervals (p0 :: p1 :: ps))
      with (differenceInDays (parseFirst p1) (parseFirst p0)
              :: cycleIntervals (p1 :: ps)).
    split.
    + constructor; [|exact IHf].
      rewrite H0, H1. exists (z1 - z0). split; [reflexivity|].
      unfold gap2 in Hhd. lia.
    + cbn [length]. rewrite IHl. reflexivity.
Qed.

Lemma sum_gaps (xs : list number) :
  Forall (fun n => exists k, n = Num k /\ 2 <= k) xs ->
  exists s, JS.sum xs = Num s /\ 2 * Z.of_nat (length xs) <= s.
Proof.
  unfold JS.sum. intros H.
  assert (forall acc, exists s, fold_left add xs (Num acc) = Num s /\
                                acc + 2 * Z.of_nat (length xs) <= s) as Hacc.
  { induction H as [|n xs (k & -> & Hk) _ IH]; intros acc.
    - exists acc. split; [reflexivity|simpl; lia].
    - cbn [fold_left add]. destruct (IH (acc + k)) as (s & Hs & Hle).
      exists s. split; [exact Hs|]. cbn [length]. lia. }
  destruct (Hacc 0) as (s & Hs & Hle). exists s. split; [exact Hs|lia].
Qed.

Lemma or_number_nonzero v d :
  d <> 0 -> exists l, or_number v (Num d) = Num l /\ l <> 0.
Proof.
  intros Hd. destruct v as [[z|]|]; cbn; [|exists d; auto..].
  destruct (Z.eqb_spec z 0); cbn; [exists d|exists z]; auto.
Qed.

(** With well-formed logs the cycle length the engine settles on is a
    non-zero integer: a settings value that is not falsy, the default 28, or
    a mean of distances of at least two days. *)
Lemma baseline_cycle_nonzero (logs : Logs) (settings : option UserSettings.t) :
  wf_logs logs ->
  exists l, base_avgCycleLength (baseline logs settings) = Num l /\ l <> 0.
Proof.
  intros Hwf. unfold baseline.
  destruct (Nat.ltb_spec 0 (length (periodDays logs))) as [Hlen|_];
    [|apply or_number_nonzero; lia].
  cbn [base_avgCycleLength].
  destruct (Nat.ltb_spec 1 (length (groupPeriods (map date (periodDays logs)))))
    as [Hps|_]; [|apply or_number_nonzero; lia].
  destruct (periodDays_sorted logs Hwf) as [Hs Hv].
  destruct (groupPeriods_starts (map date (periodDays logs)))
    as (zs & Hstarts & Hgaps); [|exact Hs|exact Hv|].
  { destruct (periodDays logs); [simpl in Hlen; lia|discriminate]. }
  destruct (cycleIntervals_gaps _ zs Hstarts Hgaps) as [Hf Hl].
  destruct (sum_gaps _ Hf) as (s & -> & Hle).
  rewrite Hl in *.
  destruct (length (groupPeriods (map date (periodDays logs)))) as [|[|n]];
    [lia|lia|].
  cbn [pred round_div] in *.
  eexists. split; [reflexivity|].
  assert (2 <= (2 * s + Z.of_nat (S n)) / (2 * Z.of_nat (S n))); [|lia].
  apply Z.div_le_lower_bound; lia.
Qed.

(** ** The engine, case by case *)

Section Engine.

Context (logs : Logs) (settings : option UserSettings.t) (today : Z).

Lemma anchor_usable s :
  anchor_unusable (Some s) = false ->
  truthy_string s = true /\ exists a, parseISO s = Day a.
Proof.
  unfold anchor_unusable. intros H%orb_false_elim.
  destruct H as [H1%negb_false_iff H2%negb_false_iff].
  split; [exact H1|]. apply isValid_Day. exact H2.
Qed.

Lemma calculateCycleStats_step s a l next :
  base_lastPeriodStart (baseline logs settings) = Some s ->
  parseISO s = Day a ->
  base_avgCycleLength (baseline logs settings) = Num l ->
  parseISO (isoDate (a + l)) = Day next ->
  calculateCycleStats logs settings today =
  Return (anchoredStats (base_avgPeriodLength (baseline logs settings)) today
            s a l next).
Proof.
  intros Hs Ha Hl Hnext. unfold calculateCycleStats, anchoredStats.
  rewrite Hs, Hl. unfold anchor_unusable.
  rewrite (parseISO_truthy s a Ha), Ha.
  cbn [isValid negb orb addDays formatDate format_yyyy_MM_dd mbind
       completion_bind].
  rewrite Hnext.
  cbn [subDays sub addDays formatDate format_yyyy_MM_dd mbind
       completion_bind mapM mret completion_ret differenceInDays add gt lt
       map].
  replace (today - a + 1 - 1) with (today - a) by lia.
  replace (next + (0 - 14)) with (next - 14) by lia.
  reflexivity.
Qed.

(** The engine returns when the predicted next period has a four-digit
    year. *)
Lemma calculateCycleStats_anchor s a l :
  base_lastPeriodStart (baseline logs settings) = Some s ->
  parseISO s = Day a ->
  base_avgCycleLength (baseline logs settings) = Num l ->
  firstIsoDay <= a + l <= lastIsoDay ->
  calculateCycleStats logs settings today =
  Return (anchoredStats (base_avgPeriodLength (baseline logs settings)) today
            s a l (a + l)).
Proof.
  intros Hs Ha Hl Hrange.
  exact (calculateCycleStats_step s a l (a + l) Hs Ha Hl
           (parseISO_isoDate _ Hrange)).
Qed.

(** What a returned result is. *)
Lemma calculateCycleStats_Return stats :
  calculateCycleStats logs settings today = Return stats ->
  (anchor_unusable (base_lastPeriodStart (baseline logs settings)) = true /\
   stats = noAnchorStats (base_avgCycleLength (baseline logs settings))
             (base_avgPeriodLength (baseline logs settings))) \/
  (exists s a l next,
     base_lastPeriodStart (baseline logs settings) = Some s /\
     parseISO s = Day a /\
     base_avgCycleLength (baseline logs settings) = Num l /\
     parseISO (isoDate (a + l)) = Day next /\
     stats = anchoredStats (base_avgPeriodLength (baseline logs settings))
               today s a l next).
Proof.
  intros Hret.
  destruct (base_lastPeriodStart (baseline logs settings)) as [s|] eqn:Hs.
  - destruct (anchor_unusable (Some s)) eqn:Hanchor.
    + left. split; [reflexivity|].
      unfold calculateCycleStats in Hret. rewrite Hs, Hanchor in Hret.
      injection Hret as <-. reflexivity.
    + right. destruct (anchor_usable s Hanchor) as [_ [a Ha]].
      destruct (base_avgCycleLength (baseline logs settings)) as [l|] eqn:Hl.
      * destruct (parseISO (isoDate (a + l))) as [|next] eqn:Hnext.
        -- unfold calculateCycleStats in Hret.
           rewrite Hs, Hanchor, Hl, Ha in Hret.
           cbn [addDays formatDate format_yyyy_MM_dd mbind completion_bind]
             in Hret.
           rewrite Hnext in Hret. discriminate Hret.
        -- exists s, a, l, next. repeat split; try assumption.
           rewrite (calculateCycleStats_step s a l next Hs Ha Hl Hnext)
             in Hret.
           injection Hret as <-. reflexivity.
      * unfold calculateCycleStats in Hret.
        rewrite Hs, Hanchor, Hl, Ha in Hret. discriminate Hret.
  - left. split; [reflexivity|].
    unfold calculateCycleStats in Hret. rewrite Hs in Hret.
    injection Hret as <-. reflexivity.
Qed.

End Engine.

Lemma calculateCycleStats_baseline logs s1 s2 today :
  baseline logs s1 = baseline logs s2 ->
  calculateCycleStats logs s1 today = calculateCycleStats logs s2 today.
Proof. intros H. unfold calculateCycleStats. rewrite H. reflexivity. Qed.

Lemma baseline_januaryLogs settings :
  baseline januaryLogs settings =
  mkBaseline (Num 28) (Num 4) (Some "2024-01-29"%string).
Proof. vm_compute. reflexivity. Qed.

Lemma baseline_marchLogs settings :
  baseline marchLogs settings =
  mkBaseline (Num 3) (Num 2) (Some "2024-03-04"%string).
Proof. vm_compute. reflexivity. Qed.

(** ** The phase classifier *)

(** C1, as amended: with [avgPeriodLength = 5] and [avgCycleLength = 28]
    (ovulation day 14) the classifier answers menstrual on day 5, follicular
    on days 6 and 11, ovulatory on days 12, 13 and 15, and luteal on day 16.
    The follicular rule is the strict test [dayOfCycle < ovulationDay - 2],
    so day 12 is already ovulatory. *)
Theorem getCyclePhase_boundaries (stats : CycleStats.t) :
  CycleStats.avgPeriodLength stats = Num 5 ->
  CycleStats.avgCycleLength stats = Num 28 ->
  getCyclePhase (Num 5) stats = menstrual /\
  getCyclePhase (Num 6) stats = folicular /\
  getCyclePhase (Num 11) stats = folicular /\
  getCyclePhase (Num 12) stats = ovulatoria /\
  getCyclePhase (Num 13) stats = ovulatoria /\
  getCyclePhase (Num 15) stats = ovulatoria /\
  getCyclePhase (Num 16) stats = lutea.
Proof.
  intros Hp Hc. unfold getCyclePhase. rewrite Hp, Hc.
  repeat split; reflexivity.
Qed.

Lemma getCyclePhase_boundaries_witness :
  let stats := noAnchorStats (Num 28) (Num 5) in
  getCyclePhase (Num 5) stats = menstrual /\
  getCyclePhase (Num 6) stats = folicular /\
  getCyclePhase (Num 11) stats = folicular /\
  getCyclePhase (Num 12) stats = ovulatoria /\
  getCyclePhase (Num 13) stats = ovulatoria /\
  getCyclePhase (Num 15) stats = ovulatoria /\
  getCyclePhase (Num 16) stats = lutea.
Proof.
  apply (getCyclePhase_boundaries (noAnchorStats (Num 28) (Num 5)));
    reflexivity.
Defined.

(** C1, as stated, fails on day 12: with the lengths 5 and 28 the classifier
    answers ovulatory there, not follicular. *)
Lemma getCyclePhase_day12_not_folicular :
  CycleStats.avgPeriodLength (noAnchorStats (Num 28) (Num 5)) = Num 5 /\
  CycleStats.avgCycleLength (noAnchorStats (Num 28) (Num 5)) = Num 28 /\
  getCyclePhase (Num 12) (noAnchorStats (Num 28) (Num 5)) = ovulatoria /\
  getCyclePhase (Num 12) (noAnchorStats (Num 28) (Num 5)) <> folicular.
Proof. repeat split; [reflexivity .. | discriminate]. Qed.

(** C10: when [avgCycleLength <= 17], no day of cycle from 1 on is follicular:
    [ovulationDay - 2] is at most 1, so the strict comparison of the second
    rule cannot hold. *)
Theorem getCyclePhase_short_cycle_never_folicular
    (dayOfCycle : Z) (stats : CycleStats.t) :
  1 <= dayOfCycle ->
  le (CycleStats.avgCycleLength stats) (Num 17) = true ->
  getCyclePhase (Num dayOfCycle) stats <> folicular /\
  (getCyclePhase (Num dayOfCycle) stats = menstrual \/
   getCyclePhase (Num dayOfCycle) stats = ovulatoria \/
   getCyclePhase (Num dayOfCycle) stats = lutea).
Proof.
  intros Hday Hlen. unfold getCyclePhase.
  destruct (CycleStats.avgCycleLength stats) as [c|]; [|discriminate].
  simpl in Hlen. apply Z.leb_le in Hlen.
  destruct (le (Num dayOfCycle) (CycleStats.avgPeriodLength stats));
    [split; [discriminate|left; reflexivity]|].
  simpl. destruct (Z.ltb_spec dayOfCycle (c - 14 - 2)) as [Hlt|_]; [lia|].
  destruct (dayOfCycle <=? c - 14 + 1);
    (split; [discriminate|right; auto]).
Qed.

Lemma getCyclePhase_short_cycle_never_folicular_witness :
  getCyclePhase (Num 1) (noAnchorStats (Num 17) (Num 0)) <> folicular /\
  (getCyclePhase (Num 1) (noAnchorStats (Num 17) (Num 0)) = menstrual \/
   getCyclePhase (Num 1) (noAnchorStats (Num 17) (Num 0)) = ovulatoria \/
   getCyclePhase (Num 1) (noAnchorStats (Num 17) (Num 0)) = lutea).
Proof.
  apply (getCyclePhase_short_cycle_never_folicular 1
           (noAnchorStats (Num 17) (Num 0))).
  - lia.
  - reflexivity.
Defined.

(** ** Grouping of period days *)

(** C2: the period days 2024-01-01..03 and 2024-01-29..2024-02-02 form two
    groups, of 3 and 5 days, 28 days apart; the stats carry
    [avgPeriodLength = round((3 + 5) / 2) = 4], [avgCycleLength = 28] and
    [lastPeriodStart = 2024-01-29], whatever the settings and the day of the
    evaluation. *)
Theorem january_two_groups (settings : option UserSettings.t) (today : Z) :
  let ps := groupPeriods (map date (periodDays januaryLogs)) in
  ps = [["2024-01-01"; "2024-01-02"; "2024-01-03"];
        ["2024-01-29"; "2024-01-30"; "2024-01-31"; "2024-02-01";
         "2024-02-02"]]%string /\
  length ps = 2%nat /\
  cycleIntervals ps = [Num 28] /\
  round_div (Num (3 + 5)) 2 = Num 4 /\
  exists st,
    calculateCycleStats januaryLogs settings today = Return st /\
    CycleStats.avgPeriodLength st = Num 4 /\
    CycleStats.avgCycleLength st = Num 28 /\
    CycleStats.lastPeriodStart st = Some "2024-01-29"%string.
Proof.
  split; [vm_compute; reflexivity|].
  split; [vm_compute; reflexivity|].
  split; [vm_compute; reflexivity|].
  split; [vm_compute; reflexivity|].
  eexists. split.
  - apply (calculateCycleStats_anchor _ _ _ "2024-01-29"%string
             (days_from_civil 2024 1 29) 28);
      rewrite ?baseline_januaryLogs; try reflexivity.
    vm_compute. split; discriminate.
  - rewrite baseline_januaryLogs. repeat split.
Qed.

(** C8: the period days 2024-03-01, 2024-03-02 and 2024-03-04 form two
    groups, of 2 days and of 1 day, not one group of 3; in general a period
    day whose distance to the previous period day is anything but 1 starts a
    new group. *)
Theorem march_gap_splits (settings : option UserSettings.t) (today : Z) :
  let ps := groupPeriods (map date (periodDays marchLogs)) in
  ps = [["2024-03-01"; "2024-03-02"]; ["2024-03-04"]]%string /\
  map length ps = [2; 1]%nat /\
  (exists st,
     calculateCycleStats marchLogs settings today = Return st /\
     CycleStats.avgPeriodLength st = Num 2 /\
     CycleStats.avgCycleLength st = Num 3 /\
     CycleStats.lastPeriodStart st = Some "2024-03-04"%string) /\
  (forall days d,
     (forall p, last days = Some p ->
                differenceInDays (parseISO d) (parseISO p) <> Num 1) ->
     groupPeriods (days ++ [d]) = groupPeriods days ++ [[d]]).
Proof.
  split; [vm_compute; reflexivity|].
  split; [vm_compute; reflexivity|].
  split; [|exact groupPeriods_snoc_gap].
  eexists. split.
  - apply (calculateCycleStats_anchor _ _ _ "2024-03-04"%string
             (days_from_civil 2024 3 4) 3);
      rewrite ?baseline_marchLogs; try reflexivity.
    vm_compute. split; discriminate.
  - rewrite baseline_marchLogs. repeat split.
Qed.

Lemma march_gap_splits_witness :
  groupPeriods (["2024-03-01"; "2024-03-02"]%string ++ ["2024-03-04"]%string)
  = groupPeriods ["2024-03-01"; "2024-03-02"]%string
      ++ [["2024-03-04"]%string].
Proof.
  apply (proj2 (proj2 (proj2 (march_gap_splits None 0)))).
  intros p Hp. injection Hp as <-. vm_compute. discriminate.
Defined.

(** ** Settings fallbacks *)

(** C9: an absent settings record, a zero or [NaN] length and an empty manual
    start are replaced by 28, 5 and no anchor before anything is derived:
    the stats are those of the settings with the defaults written in. *)
Theorem settings_fallbacks (logs : Logs) (s : UserSettings.t) (today : Z) :
  calculateCycleStats logs None today =
    calculateCycleStats logs (Some defaultSettings) today /\
  calculateCycleStats logs (Some (withCycleLength s (Num 0))) today =
    calculateCycleStats logs (Some (withCycleLength s (Num 28))) today /\
  calculateCycleStats logs (Some (withCycleLength s NaN)) today =
    calculateCycleStats logs (Some (withCycleLength s (Num 28))) today /\
  calculateCycleStats logs (Some (withPeriodLength s (Num 0))) today =
    calculateCycleStats logs (Some (withPeriodLength s (Num 5))) today /\
  calculateCycleStats logs (Some (withPeriodLength s NaN)) today =
    calculateCycleStats logs (Some (withPeriodLength s (Num 5))) today /\
  calculateCycleStats logs (Some (withManualStart s (Some ""%string))) today =
    calculateCycleStats logs (Some (withManualStart s None)) today /\
  calculateCycleStats ∅
    (Some (UserSettings.mk None (Num 0) (Num 0) (Some ""%string) None)) today =
    Return (noAnchorStats (Num 28) (Num 5)).
Proof.
  repeat (split; [apply calculateCycleStats_baseline; reflexivity|]).
  reflexivity.
Qed.

(** ** No usable anchor *)



(** ** Texts with a year of five digits *)

Lemma length_append (a b : string) :
  String.length (a +:+ b) = (String.length a + String.length b)%nat.
Proof.
  induction a as [|c a IH]; [reflexivity|].
  change (String c a +:+ b) with (String c (a +:+ b)).
  cbn [String.length]. rewrite IH. reflexivity.
Qed.

Lemma length_toString_aux fuel n acc :
  (String.length acc <= String.length (toString_aux fuel n acc))%nat /\
  (fuel <> 0%nat ->
   (S (String.length acc) <= String.length (toString_aux fuel n acc))%nat).
Proof.
  revert n acc. induction fuel as [|fuel IH]; intros n acc.
  - split; [reflexivity|congruence].
  - rewrite toString_aux_S.
    destruct (n <? 10); [cbn [String.length]; split; lia|].
    destruct (IH (n / 10) (String (digit_char (n mod 10)) acc)) as [IH1 _].
    cbn [String.length] in IH1. split; lia.
Qed.

Lemma length_toString_10000 n :
  10000 <= n -> (5 <= String.length (toString n))%nat.
Proof.
  intros Hn. unfold toString.
  assert (13 <= Z.log2 n) as Hlog
    by (change 13 with (Z.log2 10000); apply Z.log2_le_mono; exact Hn).
  destruct (Z.to_nat (Z.log2 n)) as [|[|[|[|fuel]]]] eqn:E; try lia.
  rewrite !toString_aux_S.
  destruct (Z.ltb_spec n 10); [lia|].
  destruct (Z.ltb_spec (n / 10) 10); [div_lia|].
  destruct (Z.ltb_spec (n / 10 / 10) 10); [div_lia|].
  destruct (Z.ltb_spec (n / 10 / 10 / 10) 10); [div_lia|].
  destruct (n / 10 / 10 / 10 / 10 <? 10); [cbn [String.length]; lia|].
  match goal with
  | |- (_ <= String.length (toString_aux ?f ?m ?acc))%nat =>
      destruct (length_toString_aux f m acc) as [Hlen _]
  end.
  cbn [String.length] in Hlen. exact Hlen.
Qed.

Lemma length_zeros j :
  String.length (String.concat EmptyString (replicate j "0"%string)) = j.
Proof.
  induction j as [|[|j] IH]; [reflexivity|reflexivity|].
  change (String.concat EmptyString (replicate (S (S j)) "0"%string))
    with ("0" +:+ EmptyString
            +:+ String.concat EmptyString (replicate (S j) "0"%string)).
  rewrite !length_append, IH. reflexivity.
Qed.

Lemma length_padStart k s :
  (String.length s <= String.length (padStart k s))%nat /\
  (k <= String.length (padStart k s))%nat.
Proof. unfold padStart. rewrite length_append, length_zeros. lia. Qed.

Lemma parse_fields_length s y m d :
  parse_fields s = Some (y, m, d) -> String.length s = 10%nat.
Proof.
  intros (c1 & c2 & c3 & c4 & h1 & c5 & c6 & h2 & c7 & c8 & yh & yl & -> & _)
         %parse_fields_Some.
  reflexivity.
Qed.

(** Beyond the year 9999 the text [format] writes has a year of five digits
    or more, and does not read back as a date. *)
Lemma parseISO_isoDate_beyond n :
  lastIsoDay < n -> parseISO (isoDate n) = InvalidDate.
Proof.
  intros Hn. pose proof (civil_from_days_spec n) as H.
  unfold parseISO.
  destruct (parse_fields (isoDate n)) as [[[y' m'] d']|] eqn:Hp;
    [|reflexivity].
  exfalso. apply parse_fields_length in Hp. revert Hp. unfold isoDate.
  destruct (civil_from_days n) as [[y m] d]. destruct H as [Hv Hd].
  assert (10000 <= y) as Hy.
  { destruct (Z.le_gt_cases 10000 y) as [?|Hlt]; [assumption|exfalso].
    pose proof Hv as Hv'. apply validateDate_true in Hv' as [Hm Hday].
    assert (daysInMonth y m <= 31) as Hdim
      by (unfold daysInMonth; repeat case_match; lia).
    destruct (decide (y = 9999 /\ m = 12 /\ d = 31)) as [(-> & -> & ->)|Hne].
    - change (days_from_civil 9999 12 31) with lastIsoDay in Hd. lia.
    - assert (days_from_civil y m d < days_from_civil 9999 12 31) as Hlt'
        by (apply days_from_civil_lt; [exact Hv|reflexivity|lia]).
      change (days_from_civil 9999 12 31) with lastIsoDay in Hlt'. lia. }
  destruct (Z.ltb_spec 0 y) as [_|?]; [|lia].
  rewrite !length_append.
  pose proof (length_toString_10000 y Hy) as H5.
  pose proof (proj1 (length_padStart 4 (toString y))) as H4.
  pose proof (proj2 (length_padStart 2 (toString m))) as Hm2.
  pose proof (proj2 (length_padStart 2 (toString d))) as Hd2.
  unfold addLeadingZeros. cbn [String.length]. lia.
Qed.

(** ** Predictions from a usable anchor *)

(** C3, as stated, fails below the year 0001, where [format] prints the year
    of the era: with the valid anchor 0001-01-01 and a cycle of 15 days the
    ovulation falls on 0001-01-02, and the window that should begin three
    days earlier, on 30 December of the year before, is written as
    0001-12-30, 0001-12-31, 0001-01-01, 0001-01-02, 0001-01-03: no five
    consecutive dates. *)
Lemma predictions_wrong_before_year_1 :
  exists stats,
    calculateCycleStats ∅
      (Some (withCycleLength (manualSettings "0001-01-01") (Num 15)))
      (days_from_civil 2024 2 19) = Return stats /\
    CycleStats.lastPeriodStart stats = Some "0001-01-01"%string /\
    isValid (parseISO "0001-01-01") = true /\
    CycleStats.avgCycleLength stats = Num 15 /\
    CycleStats.nextPeriodDate stats = Some "0001-01-16"%string /\
    CycleStats.ovulationDate stats = Some "0001-01-02"%string /\
    CycleStats.fertileWindow stats =
      ["0001-12-30"; "0001-12-31"; "0001-01-01"; "0001-01-02";
       "0001-01-03"]%string /\
    ~ exists o,
        map parseISO (CycleStats.fertileWindow stats)
          = map Day [o - 3; o - 2; o - 1; o; o + 1].
Proof.
  eexists. split; [vm_compute; reflexivity|].
  cbn [CycleStats.lastPeriodStart CycleStats.avgCycleLength
       CycleStats.nextPeriodDate CycleStats.ovulationDate
       CycleStats.fertileWindow].
  repeat split.
  intros [o Ho].
  assert (map parseISO
            ["0001-12-30"; "0001-12-31"; "0001-01-01"; "0001-01-02";
             "0001-01-03"]%string
          = map Day [-718799; -718798; -719162; -719161; -719160]) as E
    by (vm_compute; reflexivity).
  rewrite E in Ho. cbn [map] in Ho. injection Ho as H1 H2 H3 H4 H5. lia.
Qed.

(** C3, as amended: for stats returned with an anchor on day [a] and a cycle
    of [l] days such that day [a + l - 17], the first of the fertile window,
    is not before 0001-01-01, [nextPeriodDate] is the date of day [a + l],
    [ovulationDate] the date 14 days before it, and [fertileWindow] the five
    consecutive dates from three days before the ovulation to one day after
    it, the ovulation being the fourth.  The engine does return such stats
    when [a + l] lies in the years 0001 to 9999; beyond them it throws. *)
Theorem predictions_from_anchor :
  (forall (logs : Logs) (settings : option UserSettings.t) (today : Z)
          (stats : CycleStats.t) (s : string) (a l : Z),
     calculateCycleStats logs settings today = Return stats ->
     CycleStats.lastPeriodStart stats = Some s ->
     parseISO s = Day a ->
     CycleStats.avgCycleLength stats = Num l ->
     firstIsoDay + 17 <= a + l ->
     exists next ovulation window,
       CycleStats.nextPeriodDate stats = Some next /\
       formatDate (Day (a + l)) = Return next /\
       parseISO next = Day (a + l) /\
       CycleStats.ovulationDate stats = Some ovulation /\
       formatDate (Day (a + l - 14)) = Return ovulation /\
       parseISO ovulation = Day (a + l - 14) /\
       CycleStats.fertileWindow stats = window /\
       map parseISO window =
         map Day [a + l - 14 - 3; a + l - 14 - 2; a + l - 14 - 1;
                  a + l - 14; a + l - 14 + 1] /\
       length window = 5%nat /\
       window !! 3%nat = Some ovulation) /\
  (forall (logs : Logs) (settings : option UserSettings.t) (today : Z)
          (s : string) (a l : Z),
     base_lastPeriodStart (baseline logs settings) = Some s ->
     parseISO s = Day a ->
     base_avgCycleLength (baseline logs settings) = Num l ->
     firstIsoDay <= a + l <= lastIsoDay ->
     exists stats,
       calculateCycleStats logs settings today = Return stats /\
       CycleStats.lastPeriodStart stats = Some s /\
       CycleStats.avgCycleLength stats = Num l) /\
  (forall (logs : Logs) (settings : option UserSettings.t) (today : Z)
          (s : string) (a l : Z),
     base_lastPeriodStart (baseline logs settings) = Some s ->
     parseISO s = Day a ->
     base_avgCycleLength (baseline logs settings) = Num l ->
     lastIsoDay < a + l ->
     calculateCycleStats logs settings today = Throw RangeError).
Proof.
  split; [|split].
  - intros logs settings today stats s a l Hret Hs Ha Hl Hlow.
    destruct (calculateCycleStats_Return _ _ _ _ Hret)
      as [[_ ->]|(s' & a' & l' & next & _ & Ha' & _ & Hnext & ->)];
      [discriminate Hs|].
    injection Hs as ->. injection Hl as ->.
    rewrite Ha in Ha'. injection Ha' as <-.
    assert (a + l <= lastIsoDay) as Hhigh.
    { destruct (Z.le_gt_cases (a + l) lastIsoDay) as [?|Hgt]; [assumption|].
      rewrite (parseISO_isoDate_beyond _ Hgt) in Hnext. discriminate Hnext. }
    rewrite parseISO_isoDate in Hnext by lia. injection Hnext as <-.
    exists (isoDate (a + l)), (isoDate (a + l - 14)),
      (map (fun i => isoDate (a + l - 14 + i)) [-3; -2; -1; 0; 1]).
    cbn [anchoredStats CycleStats.nextPeriodDate CycleStats.ovulationDate
         CycleStats.fertileWindow map length formatDate format_yyyy_MM_dd].
    rewrite !parseISO_isoDate by lia. rewrite Z.add_0_r.
    repeat split; reflexivity.
  - intros logs settings today s a l Hs Ha Hl Hrange. eexists. split.
    + exact (calculateCycleStats_anchor logs settings today s a l
               Hs Ha Hl Hrange).
    + split; reflexivity.
  - intros logs settings today s a l Hs Ha Hl Hbeyond.
    unfold calculateCycleStats. rewrite Hs, Hl. unfold anchor_unusable.
    rewrite (parseISO_truthy s a Ha), Ha.
    cbn [isValid negb orb addDays formatDate format_yyyy_MM_dd mbind
         completion_bind].
    rewrite (parseISO_isoDate_beyond _ Hbeyond). reflexivity.
Qed.

Lemma predictions_from_anchor_witness :
  exists next ovulation window,
    CycleStats.nextPeriodDate januaryStats = Some next /\
    formatDate (Day (days_from_civil 2024 1 29 + 28)) = Return next /\
    parseISO next = Day (days_from_civil 2024 1 29 + 28) /\
    CycleStats.ovulationDate januaryStats = Some ovulation /\
    formatDate (Day (days_from_civil 2024 1 29 + 28 - 14))
      = Return ovulation /\
    parseISO ovulation = Day (days_from_civil 2024 1 29 + 28 - 14) /\
    CycleStats.fertileWindow januaryStats = window /\
    map parseISO window =
      map Day [days_from_civil 2024 1 29 + 28 - 14 - 3;
               days_from_civil 2024 1 29 + 28 - 14 - 2;
               days_from_civil 2024 1 29 + 28 - 14 - 1;
               days_from_civil 2024 1 29 + 28 - 14;
               days_from_civil 2024 1 29 + 28 - 14 + 1] /\
    length window = 5%nat /\
    window !! 3%nat = Some ovulation.
Proof.
  apply (proj1 predictions_from_anchor januaryLogs None
           (days_from_civil 2024 2 19) januaryStats "2024-01-29"%string
           (days_from_civil 2024 1 29) 28).
  - vm_compute. reflexivity.
  - reflexivity.
  - vm_compute. reflexivity.
  - reflexivity.
  - vm_compute. discriminate.
Defined.

(** ** The day of the cycle *)



(** ** Dependence on the clock *)

(** C7, as stated, fails: the same logs and settings evaluated on two
    different days give different stats. *)
Lemma calculateCycleStats_reads_clock :
  ~ (forall (logs : Logs) (settings : option UserSettings.t) (t1 t2 : Z),
       calculateCycleStats logs settings t1 =
       calculateCycleStats logs settings t2).
Proof.
  intros H.
  specialize (H ∅ (Some (manualSettings "2024-01-01"))
                (days_from_civil 2024 1 2) (days_from_civil 2024 1 3)).
  vm_compute in H. discriminate H.
Qed.

(** C7, as amended: the stats are a function of the logs, the settings and
    the day of the evaluation; the day of the evaluation reaches
    [currentDayOfCycle] only, so every other field, and whether the call
    throws, is the same on any two days. *)
Theorem calculateCycleStats_clock_only_in_day (logs : Logs)
    (settings : option UserSettings.t) (t1 t2 : Z) :
  withoutToday (calculateCycleStats logs settings t1) =
  withoutToday (calculateCycleStats logs settings t2).
Proof.
  unfold calculateCycleStats, withoutToday.
  destruct (base_lastPeriodStart (baseline logs settings)) as [s|];
    [|reflexivity].
  destruct (anchor_unusable (Some s)); [reflexivity|].
  destruct (formatDate (addDays (parseISO s) _)) as [next|e]; [|reflexivity].
  cbn [mbind completion_bind].
  destruct (formatDate (subDays (parseISO next) (Num 14))) as [ov|e];
    [|reflexivity].
  cbn [mbind completion_bind].
  destruct (mapM _ _) as [fw|e]; reflexivity.
Qed.

(** ** The calendar-day resolver against the engine *)

(** C6 does not hold of the code.  With logs as they can be read from
    storage, one period entry filed under the key of another day, the two
    groups start on the same day and the mean cycle length is 0; both paths
    then compute the day of the cycle [NaN], and the today summary, which
    tests [=== null], classifies it as luteal where the resolver, which tests
    truthiness, answers no phase. *)
Lemma getDayStatus_disagrees_on_misfiled_logs :
  exists stats status,
    calculateCycleStats misfiledLogs None (days_from_civil 2024 1 10)
      = Return stats /\
    getDayStatus misfiledLogs stats (Day (days_from_civil 2024 1 10))
      = Return status /\
    CycleStats.avgCycleLength stats = Num 0 /\
    dayOfCycle status = Some NaN /\
    CycleStats.currentDayOfCycle stats = Some NaN /\
    phase status = None /\
    currentPhase stats = Some lutea /\
    phase status <> currentPhase stats.
Proof.
  do 2 eexists.
  split; [vm_compute; reflexivity|].
  split; [vm_compute; reflexivity|].
  repeat split. discriminate.
Qed.

(** For the stats the engine returns on a day, the resolver asked about that
    same day yields the engine's [currentDayOfCycle], and the phase the
    application derives from it whenever [avgCycleLength] is not 0; it is
    not 0 when the logs are well formed. *)
Lemma getDayStatus_against_stats (logs : Logs)
    (settings : option UserSettings.t) (today : Z) (stats : CycleStats.t) :
  calculateCycleStats logs settings today = Return stats ->
  exists status,
    getDayStatus logs stats (Day today) = Return status /\
    dayOfCycle status = CycleStats.currentDayOfCycle stats /\
    (CycleStats.avgCycleLength stats <> Num 0 ->
     phase status = currentPhase stats) /\
    (wf_logs logs -> CycleStats.avgCycleLength stats <> Num 0).
Proof.
  intros Hret.
  unfold getDayStatus, currentPhase.
  cbn [formatDate format_yyyy_MM_dd mbind completion_bind mret
       completion_ret].
  eexists. split; [reflexivity|]. cbn [dayOfCycle phase].
  assert (wf_logs logs ->
          base_avgCycleLength (baseline logs settings) <> Num 0) as Hwf.
  { intros Hwf. destruct (baseline_cycle_nonzero logs settings Hwf)
      as (l & -> & Hl0). congruence. }
  destruct (calculateCycleStats_Return _ _ _ _ Hret)
    as [[_ ->]|(s & a & l & next & _ & Ha & Hl & _ & ->)].
  { repeat split. exact Hwf. }
  rewrite Hl in Hwf.
  cbn [anchoredStats CycleStats.lastPeriodStart CycleStats.avgCycleLength
       CycleStats.currentDayOfCycle].
  rewrite (parseISO_truthy s a Ha), Ha.
  cbn [differenceInDays add gt lt sub].
  replace (today - a + 1 - 1) with (today - a) by lia.
  split; [reflexivity|]. split; [|exact Hwf].
  intros Hl0.
  destruct (Z.ltb_spec 0 (today - a + 1)) as [Hpos|_]; [|reflexivity].
  unfold rem. destruct (Z.eqb_spec l 0) as [->|Hne]; [contradiction|].
  cbn [add truthy].
  pose proof (Z.rem_nonneg (today - a) l Hne) as Hrem.
  destruct (Z.eqb_spec (Z.rem (today - a) l + 1) 0) as [?|_];
    [lia|reflexivity].
Qed.

(** On well-formed logs, every entry filed under its own valid date, the
    two paths agree on the day of the cycle and on the phase. *)
Lemma getDayStatus_agrees_on_wf_logs (logs : Logs)
    (settings : option UserSettings.t) (today : Z) (stats : CycleStats.t) :
  wf_logs logs ->
  calculateCycleStats logs settings today = Return stats ->
  exists status,
    getDayStatus logs stats (Day today) = Return status /\
    dayOfCycle status = CycleStats.currentDayOfCycle stats /\
    phase status = currentPhase stats.
Proof.
  intros Hwf Hret.
  destruct (getDayStatus_against_stats logs settings today stats Hret)
    as (status & Hst & Hday & Hphase & Hne).
  exists status. split; [exact Hst|]. split; [exact Hday|].
  exact (Hphase (Hne Hwf)).
Qed.

(** The January logs are well formed. *)
Lemma wf_januaryLogs : wf_logs januaryLogs.
Proof. unfold wf_logs. apply (bool_decide_unpack _). vm_compute. exact I. Qed.

(** * Further properties *)

(** ** The grouping loop keeps every period day *)

Lemma concat_push_current g : concat (push_current g) = flat g.
Proof.
  unfold push_current, flat. destruct (currentPeriod g) as [|d cur].
  - cbn. rewrite app_nil_r. reflexivity.
  - cbn [length Nat.ltb Nat.leb]. rewrite concat_app. cbn.
    rewrite app_nil_r. reflexivity.
Qed.

Lemma flat_group_step prev d g : flat (group_step prev d g) = flat g ++ [d].
Proof.
  unfold group_step.
  destruct (match prev with
            | Some p => strict_eq (differenceInDays (parseISO d) (parseISO p))
                          (Num 1)
            | None => false
            end).
  - unfold flat. cbn. rewrite app_assoc. reflexivity.
  - unfold flat at 1. cbn [periods currentPeriod].
    rewrite concat_push_current. reflexivity.
Qed.

Lemma flat_group_loop prev days g :
  flat (group_loop prev days g) = flat g ++ days.
Proof.
  revert prev g. induction days as [|d days IH]; intros prev g.
  - cbn. rewrite app_nil_r. reflexivity.
  - cbn [group_loop]. rewrite IH, flat_group_step, <- app_assoc. reflexivity.
Qed.

Lemma push_current_nonempty_groups g :
  Forall (fun p => p <> []) (periods g) ->
  Forall (fun p => p <> []) (push_current g).
Proof.
  intros H. unfold push_current. destruct (currentPeriod g) as [|d cur] eqn:E.
  - exact H.
  - cbn [length Nat.ltb Nat.leb]. apply Forall_app. split; [exact H|].
    constructor; [discriminate|constructor].
Qed.

Lemma group_step_nonempty_groups prev d g :
  Forall (fun p => p <> []) (periods g) ->
  Forall (fun p => p <> []) (periods (group_step prev d g)).
Proof.
  intros H. unfold group_step.
  destruct (match prev with Some _ => _ | None => _ end); cbn [periods].
  - exact H.
  - exact (push_current_nonempty_groups g H).
Qed.

Lemma group_loop_nonempty_groups prev days g :
  Forall (fun p => p <> []) (periods g) ->
  Forall (fun p => p <> []) (periods (group_loop prev days g)).
Proof.
  revert prev g. induction days as [|d days IH]; intros prev g H; [exact H|].
  cbn [group_loop]. apply IH, group_step_nonempty_groups, H.
Qed.

Lemma length_concat_nonempty (ps : list (list string)) :
  Forall (fun p => p <> []) ps -> (length ps <= length (concat ps))%nat.
Proof.
  induction 1 as [|p ps Hp _ IH]; [reflexivity|].
  cbn [concat length]. rewrite length_app.
  destruct p; [congruence|]. cbn [length]. lia.
Qed.

(** The groups, one after the other, are the days given. *)
Lemma groupPeriods_concat (days : list string) :
  concat (groupPeriods days) = days.
Proof.
  unfold groupPeriods. rewrite concat_push_current, flat_group_loop.
  reflexivity.
Qed.

Lemma groupPeriods_nonempty_groups (days : list string) :
  Forall (fun p => p <> []) (groupPeriods days).
Proof.
  unfold groupPeriods.
  apply push_current_nonempty_groups, group_loop_nonempty_groups.
  constructor.
Qed.

Lemma groupPeriods_length (days : list string) :
  (length (groupPeriods days) <= length days)%nat.
Proof.
  rewrite <- (groupPeriods_concat days) at 2.
  apply length_concat_nonempty, groupPeriods_nonempty_groups.
Qed.

Lemma groupPeriods_nonempty (days : list string) :
  days <> [] -> groupPeriods days <> [].
Proof.
  intros Hd Hg. pose proof (groupPeriods_concat days) as Hc.
  rewrite Hg in Hc. cbn in Hc. congruence.
Qed.

(** X1: the grouping loop of [calculateCycleStats] loses, repeats and
    reorders nothing: the groups, one after the other, are the sorted period
    days; no group is empty, so there are at most as many groups as days. *)
Theorem groupPeriods_partition (days : list string) :
  concat (groupPeriods days) = days /\
  Forall (fun p => p <> []) (groupPeriods days) /\
  (length (groupPeriods days) <= length days)%nat /\
  (days <> [] -> groupPeriods days <> []).
Proof.
  split; [apply groupPeriods_concat|].
  split; [apply groupPeriods_nonempty_groups|].
  split; [apply groupPeriods_length|apply groupPeriods_nonempty].
Qed.

(** ** The lengths of returned stats *)

Lemma sum_Num (zs : list Z) (acc : Z) :
  fold_left add (map Num zs) (Num acc) = Num (fold_left Z.add zs acc).
Proof.
  revert acc. induction zs as [|z zs IH]; intros acc; [reflexivity|].
  cbn [map fold_left add]. apply IH.
Qed.

Lemma fold_left_add_shift (zs : list Z) (acc : Z) :
  fold_left Z.add zs acc = acc + fold_left Z.add zs 0.
Proof.
  revert acc. induction zs as [|z zs IH]; intros acc; cbn [fold_left]; [lia|].
  rewrite (IH (acc + z)), (IH (0 + z)). lia.
Qed.

Lemma sum_group_lengths (ps : list (list string)) :
  JS.sum (map (fun p => Num (Z.of_nat (length p))) ps) =
  Num (Z.of_nat (length (concat ps))).
Proof.
  unfold JS.sum.
  rewrite <- (map_map (fun p => Z.of_nat (length p)) Num), sum_Num. f_equal.
  induction ps as [|p ps IH]; [reflexivity|].
  cbn [map fold_left concat]. rewrite length_app, fold_left_add_shift, IH.
  lia.
Qed.

(** The fields a returned result takes over from the three variables. *)
Lemma calculateCycleStats_lengths logs settings today stats :
  calculateCycleStats logs settings today = Return stats ->
  CycleStats.avgCycleLength stats
    = base_avgCycleLength (baseline logs settings) /\
  CycleStats.avgPeriodLength stats
    = base_avgPeriodLength (baseline logs settings).
Proof.
  intros Hret.
  destruct (calculateCycleStats_Return _ _ _ _ Hret)
    as [[_ ->]|(s & a & l & next & _ & _ & Hl & _ & ->)].
  - split; reflexivity.
  - rewrite Hl. split; reflexivity.
Qed.

(** X2: once a period day is logged, [avgPeriodLength] is the number of logged
    period days over the number of groups, rounded: an integer from 1 to the
    number of logged period days, whatever the settings say. *)
Theorem avgPeriodLength_is_days_per_group (logs : Logs)
    (settings : option UserSettings.t) (today : Z) (stats : CycleStats.t) :
  calculateCycleStats logs settings today = Return stats ->
  periodDays logs <> [] ->
  let n := length (periodDays logs) in
  let k := length (groupPeriods (map date (periodDays logs))) in
  (1 <= k <= n)%nat /\
  CycleStats.avgPeriodLength stats = round_div (Num (Z.of_nat n)) k /\
  exists p, CycleStats.avgPeriodLength stats = Num p /\ 1 <= p <= Z.of_nat n.
Proof.
  intros Hret Hne n k.
  destruct (calculateCycleStats_lengths _ _ _ _ Hret) as [_ ->].
  pose proof (groupPeriods_concat (map date (periodDays logs))) as Hc.
  pose proof (groupPeriods_length (map date (periodDays logs))) as Hle.
  pose proof (groupPeriods_nonempty (map date (periodDays logs))) as Hg.
  rewrite length_map in Hle.
  assert (1 <= k <= n)%nat as Hk.
  { split; [|exact Hle]. subst k.
    destruct (groupPeriods (map date (periodDays logs))) eqn:E; [|cbn; lia].
    exfalso. apply Hg; [|reflexivity].
    destruct (periodDays logs); [congruence|discriminate]. }
  assert (base_avgPeriodLength (baseline logs settings)
          = round_div (Num (Z.of_nat n)) k) as Hp.
  { unfold baseline. fold n.
    destruct (Nat.ltb_spec 0 n) as [_|?]; [|lia].
    cbn [base_avgPeriodLength]. rewrite sum_group_lengths, Hc, length_map.
    reflexivity. }
  split; [exact Hk|]. split; [exact Hp|]. rewrite Hp.
  destruct k as [|k']; [lia|]. cbn [round_div]. eexists. split; [reflexivity|].
  split.
  - apply Z.div_le_lower_bound; lia.
  - assert ((2 * Z.of_nat n + Z.of_nat (S k')) / (2 * Z.of_nat (S k'))
            < Z.of_nat n + 1); [|lia].
    apply Z.div_lt_upper_bound; nia.
Qed.

Lemma avgPeriodLength_is_days_per_group_witness :
  let n := length (periodDays januaryLogs) in
  let k := length (groupPeriods (map date (periodDays januaryLogs))) in
  (1 <= k <= n)%nat /\
  CycleStats.avgPeriodLength januaryStats = round_div (Num (Z.of_nat n)) k /\
  exists p, CycleStats.avgPeriodLength januaryStats = Num p /\
            1 <= p <= Z.of_nat n.
Proof.
  apply (avgPeriodLength_is_days_per_group januaryLogs None february19
           januaryStats).
  - vm_compute. reflexivity.
  - vm_compute. discriminate.
Defined.

(** ** The mean cycle length *)

Lemma List_last_default (zs : list Z) (z d d' : Z) :
  List.last (z :: zs) d = List.last (z :: zs) d'.
Proof.
  revert z. induction zs as [|z1 zs IH]; intros z; [reflexivity|].
  exact (IH z1).
Qed.

Lemma List_last_cons (z0 z1 : Z) (zs : list Z) :
  List.last (z1 :: zs) z0 = List.last zs z1.
Proof.
  destruct zs as [|z2 zs]; [reflexivity|].
  exact (List_last_default zs z2 z0 z1).
Qed.

(** The distances between consecutive group starts add up to the distance
    from the first start to the last. *)
Lemma cycleIntervals_telescope ps zs z0 :
  map parseFirst ps = map Day (z0 :: zs) ->
  JS.sum (cycleIntervals ps) = Num (List.last zs z0 - z0) /\
  length (cycleIntervals ps) = length zs.
Proof.
  unfold JS.sum.
  assert (forall ps zs z0 acc,
            map parseFirst ps = map Day (z0 :: zs) ->
            fold_left add (cycleIntervals ps) (Num acc)
              = Num (acc + (List.last zs z0 - z0)) /\
            length (cycleIntervals ps) = length zs) as H.
  { clear. induction ps as [|p0 ps IH]; intros zs z0 acc Hmap;
      [discriminate|].
    destruct ps as [|p1 ps]; destruct zs as [|z1 zs]; try discriminate.
    - cbn. split; [f_equal; lia|reflexivity].
    - injection Hmap as H0 H1 Hrest.
      change (cycleIntervals (p0 :: p1 :: ps))
        with (differenceInDays (parseFirst p1) (parseFirst p0)
                :: cycleIntervals (p1 :: ps)).
      cbn [fold_left length]. rewrite H0, H1. cbn [differenceInDays add].
      destruct (IH zs z1 (acc + (z1 - z0))) as [IHs IHl].
      { cbn [map]. rewrite H1, Hrest. reflexivity. }
      rewrite IHs, IHl, List_last_cons. split; [|reflexivity]. f_equal. lia. }
  intros Hmap. destruct (H ps zs z0 0 Hmap) as [Hs Hl].
  split; [rewrite Hs; f_equal; lia|exact Hl].
Qed.

(** ** The anchor taken from the history *)

Lemma open_run_first d :
  isValid (parseISO d) = true ->
  exists c, open_run d (group_step None d (mkGrouping [] [])) c.
Proof.
  intros [z Hz]%isValid_Day. exists z. unfold open_run. cbn.
  rewrite Hz. repeat split; [discriminate|f_equal; lia|constructor].
Qed.

Lemma open_run_step p d g c :
  open_run p g c -> earlier p d ->
  exists c', open_run d (group_step (Some p) d g) c'.
Proof.
  intros (Hcur & Hrun & Hp & Hclosed) (x & y & Hp' & Hd & Hlt).
  rewrite Hp in Hp'. injection Hp' as <-.
  set (n := length (currentPeriod g)) in *.
  assert (n <> 0%nat) as Hn
    by (subst n; destruct (currentPeriod g); [congruence|discriminate]).
  unfold group_step. rewrite Hd, Hp. cbn [differenceInDays strict_eq].
  destruct (Z.eqb_spec (y - (c + Z.of_nat n - 1)) 1) as [Hone|Hgap].
  - exists c. unfold open_run. cbn [periods currentPeriod].
    rewrite length_app. cbn [length]. rewrite Nat.add_1_r. fold n.
    split; [destruct (currentPeriod g); discriminate|].
    split; [|split; [rewrite Hd; f_equal; lia|exact Hclosed]].
    rewrite seqZ_S, !map_app, Hrun. cbn [map]. rewrite Hd.
    do 3 f_equal. lia.
  - exists y. unfold open_run. cbn [periods currentPeriod length].
    split; [discriminate|]. split; [cbn; rewrite Hd; reflexivity|].
    split; [rewrite Hd; f_equal; lia|].
    rewrite (push_current_nonempty g Hcur), concat_app. cbn [concat].
    rewrite app_nil_r. apply Forall_app. split.
    + eapply Forall_impl; [exact Hclosed|].
      intros q (zq & Hq & Hle). exists zq. split; [exact Hq|lia].
    + apply Forall_forall. intros q Hq.
      apply (list_elem_of_fmap_2 parseISO) in Hq. 
      change (parseISO <$> currentPeriod g) with
        (map parseISO (currentPeriod g)) in Hq.
      rewrite Hrun in Hq.
      apply list_elem_of_fmap in Hq as (zq & Hzq & Hin).
      apply elem_of_seqZ in Hin. exists zq. split; [exact Hzq|lia].
Qed.

Lemma open_run_loop days p g c :
  open_run p g c -> Sorted earlier (p :: days) ->
  exists p' c', open_run p' (group_loop (Some p) days g) c'.
Proof.
  revert p g c. induction days as [|d days IH]; intros p g c Hg Hs.
  - exists p, c. exact Hg.
  - cbn [group_loop]. apply Sorted_inv in Hs as [Hs Hhd].
    apply HdRel_inv in Hhd.
    destruct (open_run_step p d g c Hg Hhd) as [c' Hc'].
    exact (IH d _ c' Hc' Hs).
Qed.

(** On valid days in increasing order the last group is an unbroken run of
    days, and every day before it lies at least two days before its start. *)
Lemma groupPeriods_last_run days :
  days <> [] -> Sorted earlier days ->
  Forall (fun d => isValid (parseISO d) = true) days ->
  exists before run c,
    groupPeriods days = before ++ [run] /\
    days = concat before ++ run /\
    run <> [] /\
    map parseISO run = map Day (seqZ c (Z.of_nat (length run))) /\
    Forall (fun q => exists zq, parseISO q = Day zq /\ zq + 2 <= c)
           (concat before).
Proof.
  destruct days as [|d days]; [congruence|]. intros _ Hs Hv.
  apply Forall_cons in Hv as [Hd _].
  destruct (open_run_first d Hd) as [c0 H0].
  destruct (open_run_loop days d _ c0 H0 Hs)
    as (p' & c & Hcur & Hrun & _ & Hclosed).
  pose proof (groupPeriods_concat (d :: days)) as Hc.
  unfold groupPeriods in *. cbn [group_loop] in *.
  set (g := group_loop (Some d) days (group_step None d (mkGrouping [] [])))
    in *.
  rewrite (push_current_nonempty g Hcur) in *.
  exists (periods g), (currentPeriod g), c.
  rewrite concat_app in Hc. cbn [concat] in Hc. rewrite app_nil_r in Hc.
  repeat split; auto.
Qed.

(** The dates of the sorted period days are the keys of the period entries. *)
Lemma elem_of_periodDays (logs : Logs) (d : string) :
  wf_logs logs ->
  d ∈ map date (periodDays logs) <-> hasPeriodEntry logs d.
Proof.
  intros Hwf. unfold periodDays, hasPeriodEntry.
  change (map date ?l) with (date <$> l).
  rewrite merge_sort_Permutation, list_elem_of_fmap. split.
  - intros (l & -> & Hl).
    apply list_elem_of_In, filter_In in Hl as [Hl Hp].
    apply list_elem_of_In, list_elem_of_fmap in Hl as ([k l'] & -> & Hin).
    apply elem_of_map_to_list in Hin. cbn [snd] in *.
    destruct (Hwf k l' Hin) as [-> _]. exists l'. split; assumption.
  - intros (l & Hl & Hp). exists l.
    split; [symmetry; exact (proj1 (Hwf d l Hl))|].
    apply list_elem_of_In, filter_In. split; [|exact Hp].
    apply list_elem_of_In, list_elem_of_fmap. exists (d, l).
    split; [reflexivity|]. apply elem_of_map_to_list. exact Hl.
Qed.

Lemma isPeriodDay_periodDays (logs : Logs) (z : Z) :
  wf_logs logs ->
  isPeriodDay logs z <->
  exists d, d ∈ map date (periodDays logs) /\ parseISO d = Day z.
Proof.
  intros Hwf. split.
  - intros (k & Hk & Hz). exists k. split; [|exact Hz].
    apply (elem_of_periodDays logs k Hwf). exact Hk.
  - intros (d & Hd & Hz).
    apply (elem_of_periodDays logs d Hwf) in Hd.
    exists d. split; assumption.
Qed.

(** The anchor the history gives: the first day of the last group. *)
Lemma baseline_history_anchor (logs : Logs) (settings : option UserSettings.t) :
  periodDays logs <> [] ->
  base_lastPeriodStart (baseline logs settings)
    = last (groupPeriods (map date (periodDays logs))) ≫= head.
Proof.
  intros Hne. unfold baseline.
  destruct (periodDays logs); [congruence|reflexivity].
Qed.

Lemma calculateCycleStats_history_anchor (logs : Logs)
    (settings : option UserSettings.t) (today : Z) (stats : CycleStats.t)
    (s : string) (a : Z) :
  calculateCycleStats logs settings today = Return stats ->
  base_lastPeriodStart (baseline logs settings) = Some s ->
  parseISO s = Day a ->
  CycleStats.lastPeriodStart stats = Some s.
Proof.
  intros Hret Hs Ha.
  destruct (calculateCycleStats_Return _ _ _ _ Hret)
    as [[Hun _]|(s' & a' & l & next & Hs' & _ & _ & _ & ->)].
  - rewrite Hs in Hun. unfold anchor_unusable in Hun.
    rewrite (parseISO_truthy s a Ha), Ha in Hun. discriminate.
  - rewrite Hs in Hs'. injection Hs' as <-. reflexivity.
Qed.

(** X3: with well-formed logs that hold a period day, the anchor of returned
    stats is the first day of the latest unbroken run of period days: from
    the anchor on, the logged period days are exactly [n] consecutive days
    that start with it, and the day before it is not a period day. *)
Theorem lastPeriodStart_starts_latest_run (logs : Logs)
    (settings : option UserSettings.t) (today : Z) (stats : CycleStats.t) :
  wf_logs logs ->
  periodDays logs <> [] ->
  calculateCycleStats logs settings today = Return stats ->
  exists s a n,
    CycleStats.lastPeriodStart stats = Some s /\ parseISO s = Day a /\
    0 < n /\
    (forall z, a <= z -> (isPeriodDay logs z <-> z < a + n)) /\
    ~ isPeriodDay logs (a - 1).
Proof.
  intros Hwf Hne Hret.
  destruct (periodDays_sorted logs Hwf) as [Hs Hv].
  destruct (groupPeriods_last_run (map date (periodDays logs)))
    as (before & run & c & Hg & Hdays & Hrun & Hseq & Hbefore);
    [destruct (periodDays logs); [congruence|discriminate]|exact Hs|exact Hv|].
  destruct run as [|s run]; [congruence|].
  assert (parseISO s = Day c) as Hc.
  { cbn [length] in Hseq. rewrite Nat2Z.inj_succ, seqZ_cons in Hseq by lia.
    cbn [map] in Hseq. congruence. }
  exists s, c, (Z.of_nat (length (s :: run))).
  split.
  { apply (calculateCycleStats_history_anchor logs settings today stats s c);
      [exact Hret| |exact Hc].
    rewrite (baseline_history_anchor logs settings Hne), Hg, last_snoc.
    reflexivity. }
  split; [exact Hc|]. split; [cbn [length]; lia|].
  assert (forall z, isPeriodDay logs z <->
                    exists d, d ∈ concat before ++ s :: run /\
                              parseISO d = Day z) as Hall.
  { intros z. rewrite (isPeriodDay_periodDays logs z Hwf), Hdays.
    reflexivity. }
  assert (forall z d, d ∈ concat before -> parseISO d = Day z -> z + 2 <= c)
    as Hlow.
  { intros z d Hd Hz. rewrite Forall_forall in Hbefore.
    destruct (Hbefore d Hd) as (zq & Hq & Hle). congruence. }
  assert (forall z, (exists d, d ∈ s :: run /\ parseISO d = Day z) <->
                    c <= z < c + Z.of_nat (length (s :: run))) as Hin.
  { intros z. rewrite <- (elem_of_seqZ c). split.
    - intros (d & Hd & Hz). apply (list_elem_of_fmap_2 parseISO) in Hd.
      change (parseISO <$> s :: run) with (map parseISO (s :: run)) in Hd.
      rewrite Hseq, Hz in Hd.
      apply list_elem_of_fmap in Hd as (z' & [= <-] & Hd). exact Hd.
    - intros Hz. apply (list_elem_of_fmap_2 Day) in Hz.
      change (Day <$> ?l) with (map Day l) in Hz. rewrite <- Hseq in Hz.
      apply list_elem_of_fmap in Hz as (d & Hz & Hd).
      exists d. split; [|symmetry]; assumption. }
  split.
  - intros z Hz. rewrite Hall. split.
    + intros (d & [Hd|Hd]%elem_of_app & Hd').
      * pose proof (Hlow z d Hd Hd'). lia.
      * apply (proj1 (Hin z)). exists d. split; assumption.
    + intros Hlt. destruct (proj2 (Hin z)) as (d & Hd & Hd'); [lia|].
      exists d. split; [apply elem_of_app; right|]; assumption.
  - rewrite Hall. intros (d & [Hd|Hd]%elem_of_app & Hd').
    + pose proof (Hlow _ d Hd Hd'). lia.
    + assert (c <= c - 1) by (apply (proj1 (Hin (c - 1))); eauto). lia.
Qed.

Lemma lastPeriodStart_starts_latest_run_witness :
  exists s a n,
    CycleStats.lastPeriodStart januaryStats = Some s /\ parseISO s = Day a /\
    0 < n /\
    (forall z, a <= z -> (isPeriodDay januaryLogs z <-> z < a + n)) /\
    ~ isPeriodDay januaryLogs (a - 1).
Proof.
  apply (lastPeriodStart_starts_latest_run januaryLogs None february19
           januaryStats).
  - unfold wf_logs. apply (bool_decide_unpack _). vm_compute. exact I.
  - vm_compute. discriminate.
  - vm_compute. reflexivity.
Defined.

Lemma last_List_last (zs : list Z) (z0 : Z) :
  last (z0 :: zs) = Some (List.last zs z0).
Proof.
  revert z0. induction zs as [|z1 zs IH]; intros z0; [reflexivity|].
  rewrite List_last_cons. exact (IH z1).
Qed.

(** X4: with well-formed logs that hold two groups of period days or more,
    [avgCycleLength] is the distance in days from the first logged period day
    to the anchor over the number of groups less one, rounded; it is an
    integer of at least 2, whatever the settings say. *)
Theorem avgCycleLength_is_span_per_cycle (logs : Logs)
    (settings : option UserSettings.t) (today : Z) (stats : CycleStats.t) :
  wf_logs logs ->
  calculateCycleStats logs settings today = Return stats ->
  let days := map date (periodDays logs) in
  let k := length (groupPeriods days) in
  (2 <= k)%nat ->
  exists first s a0 a l,
    head days = Some first /\ parseISO first = Day a0 /\
    CycleStats.lastPeriodStart stats = Some s /\ parseISO s = Day a /\
    CycleStats.avgCycleLength stats = round_div (Num (a - a0)) (k - 1) /\
    CycleStats.avgCycleLength stats = Num l /\ 2 <= l.
Proof.
  intros Hwf Hret days k Hk. subst k days.
  assert (periodDays logs <> []) as Hne.
  { intros E. rewrite E in Hk. cbn in Hk. lia. }
  pose proof (baseline_history_anchor logs settings Hne) as Hbase.
  destruct (calculateCycleStats_lengths _ _ _ _ Hret) as [Hbl _].
  assert (base_avgCycleLength (baseline logs settings)
          = round_div
              (JS.sum (cycleIntervals
                         (groupPeriods (map date (periodDays logs)))))
              (length (cycleIntervals
                         (groupPeriods (map date (periodDays logs))))))
    as Hmean.
  { unfold baseline.
    destruct (Nat.ltb_spec 0 (length (periodDays logs))) as [_|Hlen];
      [|destruct (periodDays logs); [congruence|cbn in Hlen; lia]].
    cbn [base_avgCycleLength].
    destruct (Nat.ltb_spec 1
                (length (groupPeriods (map date (periodDays logs)))))
      as [_|?]; [reflexivity|lia]. }
  destruct (periodDays_sorted logs Hwf) as [Hs Hv].
  set (days := map date (periodDays logs)) in *.
  assert (days <> []) as Hne'
    by (subst days; destruct (periodDays logs); [congruence|discriminate]).
  rewrite Hmean in Hbl. clear Hmean.
  pose proof (groupPeriods_concat days) as Hc.
  pose proof (groupPeriods_nonempty_groups days) as Hnon.
  destruct (groupPeriods_starts days Hne' Hs Hv) as (zs & Hstarts & Hgaps).
  destruct (cycleIntervals_gaps _ zs Hstarts Hgaps) as [Hf Hl].
  destruct (sum_gaps _ Hf) as (total & Htotal & Hle).
  destruct zs as [|z0 zs].
  { apply (f_equal (@length _)) in Hstarts. rewrite !length_map in Hstarts.
    cbn in Hstarts. lia. }
  destruct (cycleIntervals_telescope _ zs z0 Hstarts) as [Hsum _].
  rewrite Htotal in Hsum. injection Hsum as ->.
  rewrite Htotal, Hl in Hbl. rewrite Hl in Hle. clear Htotal Hl Hf Hgaps.
  revert Hk Hbase Hbl Hc Hnon Hstarts Hle.
  generalize (groupPeriods days). intros G Hk Hbase Hbl Hc Hnon Hstarts Hle.
  destruct G as [|p0 ps]; [discriminate|].
  apply Forall_cons in Hnon as [Hp0 Hnon].
  destruct p0 as [|first p0]; [congruence|].
  assert (parseISO first = Day z0) as Hfirst
    by (cbn [map parseFirst] in Hstarts; congruence).
  assert (exists s, last ((first :: p0) :: ps) ≫= head = Some s /\
                    parseISO s = Day (List.last zs z0)) as (s & Hanchor & Hs').
  { pose proof (f_equal last Hstarts) as Hlast.
    change (map ?f ?l) with (f <$> l) in Hlast.
    rewrite !fmap_last, last_List_last in Hlast.
    destruct (last ((first :: p0) :: ps)) as [pl|] eqn:Epl; [|discriminate].
    injection Hlast as Hpl.
    destruct pl as [|s pl]; [discriminate|].
    exists s. split; [reflexivity|exact Hpl]. }
  cbn [length pred] in *.
  replace (S (length ps) - 1)%nat with (length ps) by lia.
  destruct (length ps) as [|n]; [lia|].
  exists first, s, z0, (List.last zs z0).
  eexists. split; [rewrite <- Hc; reflexivity|].
  split; [exact Hfirst|]. split.
  { apply (calculateCycleStats_history_anchor logs settings today stats s
             (List.last zs z0)); [exact Hret| |exact Hs'].
    rewrite Hbase. exact Hanchor. }
  split; [exact Hs'|]. split; [exact Hbl|]. rewrite Hbl.
  cbn [round_div].
  split; [reflexivity|]. apply Z.div_le_lower_bound; lia.
Qed.

Lemma avgCycleLength_is_span_per_cycle_witness :
  exists first s a0 a l,
    head (map date (periodDays januaryLogs)) = Some first /\
    parseISO first = Day a0 /\
    CycleStats.lastPeriodStart januaryStats = Some s /\ parseISO s = Day a /\
    CycleStats.avgCycleLength januaryStats
      = round_div (Num (a - a0))
          (length (groupPeriods (map date (periodDays januaryLogs))) - 1) /\
    CycleStats.avgCycleLength januaryStats = Num l /\ 2 <= l.
Proof.
  apply (avgCycleLength_is_span_per_cycle januaryLogs None february19
           januaryStats).
  - unfold wf_logs. apply (bool_decide_unpack _). vm_compute. exact I.
  - vm_compute. reflexivity.
  - vm_compute. lia.
Defined.

(** ** What the engine reads of the logs *)

Lemma compare_le_trans (a b c : string) :
  String.compare a b <> Gt -> String.compare b c <> Gt ->
  String.compare a c <> Gt.
Proof.
  revert b c. induction a as [|x a IH]; intros [|y b] [|z c];
    cbn [String.compare]; try congruence.
  unfold Ascii.compare.
  destruct (N.compare_spec (N_of_ascii x) (N_of_ascii y)) as [Hxy|Hxy|Hxy];
    destruct (N.compare_spec (N_of_ascii y) (N_of_ascii z)) as [Hyz|Hyz|Hyz];
    destruct (N.compare_spec (N_of_ascii x) (N_of_ascii z)) as [Hxz|Hxz|Hxz];
    try congruence; try lia.
  apply IH.
Qed.

#[local] Instance date_le_trans : Transitive date_le.
Proof. intros a b c. apply compare_le_trans. Qed.

#[local] Instance date_le_antisym : AntiSymm (=) date_le.
Proof.
  intros a b Hab Hba. unfold date_le, localeCompare in *.
  rewrite (String.compare_antisym b a) in Hba.
  destruct (String.compare a b) eqn:E; cbn in Hba; try congruence.
  apply String.compare_eq_iff. exact E.
Qed.

Lemma Sorted_by_date_dates (ls : list DayLog) :
  Sorted by_date ls -> Sorted date_le (map date ls).
Proof.
  induction 1 as [|l ls _ IH Hhd]; [constructor|].
  cbn [map]. constructor; [exact IH|].
  destruct Hhd; constructor. assumption.
Qed.

Lemma periodDays_Permutation (logs : Logs) :
  map date (periodDays logs)
    ≡ₚ map date (List.filter isPeriod (map snd (map_to_list logs))).
Proof.
  unfold periodDays. change (map date ?l) with (date <$> l).
  rewrite merge_sort_Permutation. reflexivity.
Qed.

(** The engine reads the logs through the sorted dates of the period entries
    only. *)
Lemma calculateCycleStats_dates logs1 logs2 settings today :
  map date (periodDays logs1) = map date (periodDays logs2) ->
  calculateCycleStats logs1 settings today
    = calculateCycleStats logs2 settings today.
Proof.
  intros Hd. unfold calculateCycleStats.
  replace (baseline logs2 settings) with (baseline logs1 settings);
    [reflexivity|].
  unfold baseline.
  rewrite <- (length_map date (periodDays logs1)),
          <- (length_map date (periodDays logs2)), Hd.
  reflexivity.
Qed.

Lemma NoDup_periodDays (logs : Logs) :
  wf_logs logs -> NoDup (map date (periodDays logs)).
Proof.
  intros Hwf. rewrite periodDays_Permutation.
  apply NoDup_dates_filter. exact (proj1 (wf_logs_values logs Hwf)).
Qed.

(** Well-formed logs that mark the same days as period days have the same
    sorted period days. *)
Lemma periodDays_same_dates (logs1 logs2 : Logs) :
  wf_logs logs1 -> wf_logs logs2 ->
  (forall d, hasPeriodEntry logs1 d <-> hasPeriodEntry logs2 d) ->
  map date (periodDays logs1) = map date (periodDays logs2).
Proof.
  intros Hwf1 Hwf2 Hsame.
  apply (Sorted_unique date_le).
  - apply Sorted_by_date_dates, Sorted_merge_sort. exact _.
  - apply Sorted_by_date_dates, Sorted_merge_sort. exact _.
  - apply NoDup_Permutation; [apply NoDup_periodDays..|]; try assumption.
    intros d. rewrite !elem_of_periodDays by assumption. apply Hsame.
Qed.

(** X5: with well-formed logs the engine depends on the logs through the set
    of dates that hold a period entry only: two log collections that mark the
    same days as period days give the same result, whatever else their
    entries hold. *)
Theorem calculateCycleStats_reads_period_dates_only (logs1 logs2 : Logs)
    (settings : option UserSettings.t) (today : Z) :
  wf_logs logs1 -> wf_logs logs2 ->
  (forall d, hasPeriodEntry logs1 d <-> hasPeriodEntry logs2 d) ->
  calculateCycleStats logs1 settings today
    = calculateCycleStats logs2 settings today.
Proof.
  intros Hwf1 Hwf2 Hsame.
  apply calculateCycleStats_dates, periodDays_same_dates; assumption.
Qed.

Lemma calculateCycleStats_reads_period_dates_only_witness :
  calculateCycleStats januaryLogs None february19
    = calculateCycleStats (handleSaveLog januaryLogs tiredLog) None february19.
Proof.
  apply (calculateCycleStats_reads_period_dates_only januaryLogs
           (handleSaveLog januaryLogs tiredLog) None february19).
  - unfold wf_logs. apply (bool_decide_unpack _). vm_compute. exact I.
  - unfold wf_logs. apply (bool_decide_unpack _). vm_compute. exact I.
  - intros d. unfold hasPeriodEntry, handleSaveLog.
    destruct (decide (date tiredLog = d)) as [<-|Hne].
    + rewrite lookup_insert_eq. split.
      * intros (l & Hl & _). vm_compute in Hl. discriminate Hl.
      * intros (l & [= <-] & Hp). discriminate Hp.
    + rewrite lookup_insert_ne by exact Hne. reflexivity.
Defined.

Lemma wf_logs_handleSaveLog (logs : Logs) (log : DayLog) :
  wf_logs logs -> isValid (parseISO (date log)) = true ->
  wf_logs (handleSaveLog logs log).
Proof.
  intros Hwf Hv. unfold wf_logs, handleSaveLog.
  apply map_Forall_insert_2; [split; [reflexivity|exact Hv]|exact Hwf].
Qed.

Lemma wf_logs_handleDeleteLog (logs : Logs) (d : string) :
  wf_logs logs -> wf_logs (handleDeleteLog logs d).
Proof. intros Hwf. apply map_Forall_delete. exact Hwf. Qed.

(** X6: saving an entry that leaves its day what it was, a period day or
    not, changes nothing in what the engine returns: symptoms, moods, notes
    and the other fields of an entry have no part in the stats. *)
Theorem saving_other_fields_keeps_stats (logs : Logs) (entry : DayLog)
    (settings : option UserSettings.t) (today : Z) :
  wf_logs logs ->
  isValid (parseISO (date entry)) = true ->
  (isPeriod entry = true <-> hasPeriodEntry logs (date entry)) ->
  calculateCycleStats (handleSaveLog logs entry) settings today
    = calculateCycleStats logs settings today.
Proof.
  intros Hwf Hv Hp.
  apply calculateCycleStats_dates, periodDays_same_dates;
    [apply wf_logs_handleSaveLog; assumption|exact Hwf|].
  intros d. unfold hasPeriodEntry, handleSaveLog in *.
  destruct (decide (date entry = d)) as [<-|Hne].
  - rewrite lookup_insert_eq. rewrite <- Hp. split.
    + intros (l & [= <-] & Hl). exact Hl.
    + intros Hl. exists entry. split; [reflexivity|exact Hl].
  - rewrite lookup_insert_ne by exact Hne. reflexivity.
Qed.

Lemma saving_other_fields_keeps_stats_witness :
  calculateCycleStats (handleSaveLog januaryLogs tiredLog) None february19
    = calculateCycleStats januaryLogs None february19.
Proof.
  apply (saving_other_fields_keeps_stats januaryLogs tiredLog None
           february19).
  - unfold wf_logs. apply (bool_decide_unpack _). vm_compute. exact I.
  - vm_compute. reflexivity.
  - split; [discriminate|].
    intros (l & Hl & _). vm_compute in Hl. discriminate Hl.
Defined.

(** X7: deleting the entry of a day that is not a period day changes nothing
    in what the engine returns. *)
Theorem deleting_other_entries_keeps_stats (logs : Logs) (d : string)
    (settings : option UserSettings.t) (today : Z) :
  wf_logs logs ->
  ~ hasPeriodEntry logs d ->
  calculateCycleStats (handleDeleteLog logs d) settings today
    = calculateCycleStats logs settings today.
Proof.
  intros Hwf Hno.
  apply calculateCycleStats_dates, periodDays_same_dates;
    [apply wf_logs_handleDeleteLog; assumption|exact Hwf|].
  intros d'. unfold hasPeriodEntry, handleDeleteLog in *.
  destruct (decide (d = d')) as [<-|Hne].
  - rewrite lookup_delete_eq. split; [intros (l & [=] & _)|].
    intros H. contradiction.
  - rewrite lookup_delete_ne by exact Hne. reflexivity.
Qed.

Lemma deleting_other_entries_keeps_stats_witness :
  calculateCycleStats
    (handleDeleteLog (handleSaveLog januaryLogs tiredLog) "2024-02-10")
    None february19
  = calculateCycleStats (handleSaveLog januaryLogs tiredLog) None february19.
Proof.
  apply (deleting_other_entries_keeps_stats
           (handleSaveLog januaryLogs tiredLog) "2024-02-10" None february19).
  - unfold wf_logs. apply (bool_decide_unpack _). vm_compute. exact I.
  - intros (l & Hl & Hp). vm_compute in Hl. injection Hl as <-.
    discriminate Hp.
Defined.

(** ** The calendar view of returned stats *)

(** Returned stats with an anchor, when the next period lies within the
    four-digit years. *)
Lemma calculateCycleStats_anchored logs settings today stats s a l :
  calculateCycleStats logs settings today = Return stats ->
  CycleStats.lastPeriodStart stats = Some s ->
  parseISO s = Day a ->
  CycleStats.avgCycleLength stats = Num l ->
  firstIsoDay <= a + l <= lastIsoDay ->
  stats = anchoredStats (CycleStats.avgPeriodLength stats) today s a l (a + l).
Proof.
  intros Hret Hs Ha Hl Hrange.
  destruct (calculateCycleStats_Return _ _ _ _ Hret)
    as [[_ ->]|(s' & a' & l' & next & _ & Ha' & _ & Hnext & ->)];
    [discriminate Hs|].
  injection Hs as ->. injection Hl as ->.
  rewrite Ha in Ha'. injection Ha' as <-.
  rewrite (parseISO_isoDate _ Hrange) in Hnext. injection Hnext as <-.
  reflexivity.
Qed.

Lemma isoDate_eqb x y :
  firstIsoDay <= x <= lastIsoDay -> firstIsoDay <= y <= lastIsoDay ->
  String.eqb (isoDate x) (isoDate y) = (x =? y).
Proof.
  intros Hx Hy. destruct (Z.eqb_spec x y) as [->|Hne].
  - apply String.eqb_refl.
  - apply String.eqb_neq. intros E. apply Hne.
    pose proof (parseISO_isoDate x Hx) as Px.
    rewrite E, (parseISO_isoDate y Hy) in Px. congruence.
Qed.

(** X8: the countdown of the home screen.  For returned stats with the anchor
    on day [a], a cycle of [l] days and the next period within the four-digit
    years, [nextPeriodIn] is [a + l - today]; during the first cycle after
    the anchor the day of the cycle and the countdown add up to [l + 1]. *)
Theorem nextPeriodIn_countdown (logs : Logs) (settings : option UserSettings.t)
    (today : Z) (stats : CycleStats.t) (s : string) (a l : Z) :
  calculateCycleStats logs settings today = Return stats ->
  CycleStats.lastPeriodStart stats = Some s ->
  parseISO s = Day a ->
  CycleStats.avgCycleLength stats = Num l ->
  firstIsoDay <= a + l <= lastIsoDay ->
  nextPeriodIn stats today = Some (Num (a + l - today)) /\
  (a <= today < a + l ->
   exists day,
     CycleStats.currentDayOfCycle stats = Some (Num day) /\
     day + (a + l - today) = l + 1).
Proof.
  intros Hret Hs Ha Hl Hrange.
  rewrite (calculateCycleStats_anchored _ _ _ _ _ _ _ Hret Hs Ha Hl Hrange).
  unfold nextPeriodIn.
  cbn [anchoredStats CycleStats.nextPeriodDate CycleStats.currentDayOfCycle].
  pose proof (parseISO_isoDate _ Hrange) as Hnext.
  rewrite (parseISO_truthy _ _ Hnext), Hnext. split; [reflexivity|].
  intros Htoday. destruct (Z.ltb_spec 0 (today - a + 1)) as [_|?]; [|lia].
  unfold rem. destruct (Z.eqb_spec l 0) as [?|_]; [lia|].
  rewrite Z.rem_small by lia. cbn [add].
  eexists. split; [reflexivity|lia].
Qed.

Lemma nextPeriodIn_countdown_witness :
  nextPeriodIn januaryStats february19
    = Some (Num (january29 + 28 - february19)) /\
  (january29 <= february19 < january29 + 28 ->
   exists day,
     CycleStats.currentDayOfCycle januaryStats = Some (Num day) /\
     day + (january29 + 28 - february19) = 28 + 1).
Proof.
  apply (nextPeriodIn_countdown januaryLogs None february19 januaryStats
           "2024-01-29" january29 28).
  - vm_compute. reflexivity.
  - reflexivity.
  - vm_compute. reflexivity.
  - reflexivity.
  - unfold january29, firstIsoDay, lastIsoDay. lia.
Defined.

(** Without an anchor there is no countdown. *)
Lemma nextPeriodIn_noAnchor logs settings today stats :
  calculateCycleStats logs settings today = Return stats ->
  CycleStats.lastPeriodStart stats = None ->
  nextPeriodIn stats today = None.
Proof.
  intros Hret Hs.
  destruct (calculateCycleStats_Return _ _ _ _ Hret)
    as [[_ ->]|(s' & a' & l' & next & _ & _ & _ & _ & ->)];
    [reflexivity|discriminate Hs].
Qed.

(** The resolver on stats with an anchor, field by field. *)
Lemma getDayStatus_anchoredStats (logs' : Logs) (p : number) (today : Z)
    (s : string) (a l d : Z) :
  parseISO s = Day a ->
  firstIsoDay + 17 <= a + l <= lastIsoDay ->
  firstIsoDay <= d <= lastIsoDay ->
  let stats := anchoredStats p today s a l (a + l) in
  exists status,
    getDayStatus logs' stats (Day d) = Return status /\
    isPredictedMenstruation status = (d =? a + l) /\
    isOvulation status = (d =? a + l - 14) /\
    isFertile status = (a + l - 17 <=? d) && (d <=? a + l - 13) /\
    dayOfCycle status =
      (if 0 <? d - a + 1
       then Some (add (rem (Num (d - a)) (Num l)) (Num 1)) else None) /\
    phase status =
      match dayOfCycle status with
      | Some n => if truthy n then Some (getCyclePhase n stats) else None
      | None => None
      end.
Proof.
  intros Ha Hrange Hd stats. subst stats.
  unfold getDayStatus.
  cbn [formatDate format_yyyy_MM_dd mbind completion_bind mret
       completion_ret].
  eexists. split; [reflexivity|].
  cbn [isPredictedMenstruation isOvulation isFertile dayOfCycle phase
       anchoredStats CycleStats.nextPeriodDate CycleStats.ovulationDate
       CycleStats.fertileWindow CycleStats.lastPeriodStart
       CycleStats.avgCycleLength same_date map existsb].
  rewrite !(String.eqb_sym (isoDate d)).
  rewrite !isoDate_eqb by lia.
  rewrite (parseISO_truthy s a Ha), Ha.
  cbn [differenceInDays add sub gt lt].
  replace (d - a + 1 - 1) with (d - a) by lia.
  split; [apply Z.eqb_sym|]. split; [apply Z.eqb_sym|].
  split; [|split; reflexivity].
  destruct (Z.leb_spec (a + l - 17) d), (Z.leb_spec d (a + l - 13));
    cbn [andb orb];
    repeat match goal with
           | |- context [?x =? ?y] => destruct (Z.eqb_spec x y); cbn [orb]
           end; try reflexivity; lia.
Qed.

(** X9: what the calendar marks.  For returned stats with the anchor on day
    [a] and a cycle of [l] days, the resolver marks a day [d] as predicted
    period exactly when [d = a + l], as ovulation exactly when
    [d = a + l - 14], and as fertile exactly when
    [a + l - 17 <= d <= a + l - 13], all days within the four-digit years. *)
Theorem getDayStatus_marks (logs logs' : Logs)
    (settings : option UserSettings.t) (today : Z) (stats : CycleStats.t)
    (s : string) (a l d : Z) :
  calculateCycleStats logs settings today = Return stats ->
  CycleStats.lastPeriodStart stats = Some s ->
  parseISO s = Day a ->
  CycleStats.avgCycleLength stats = Num l ->
  firstIsoDay + 17 <= a + l <= lastIsoDay ->
  firstIsoDay <= d <= lastIsoDay ->
  exists status,
    getDayStatus logs' stats (Day d) = Return status /\
    isPredictedMenstruation status = (d =? a + l) /\
    isOvulation status = (d =? a + l - 14) /\
    isFertile status = (a + l - 17 <=? d) && (d <=? a + l - 13).
Proof.
  intros Hret Hs Ha Hl Hrange Hd.
  assert (firstIsoDay <= a + l <= lastIsoDay) as Hrange' by lia.
  rewrite (calculateCycleStats_anchored _ _ _ _ _ _ _ Hret Hs Ha Hl Hrange').
  destruct (getDayStatus_anchoredStats logs' (CycleStats.avgPeriodLength stats)
              today s a l d Ha Hrange Hd)
    as (status & Hst & Hp & Ho & Hf & _).
  exists status. repeat split; assumption.
Qed.

Lemma getDayStatus_marks_witness :
  exists status,
    getDayStatus januaryLogs januaryStats (Day (february19 - 7))
      = Return status /\
    isPredictedMenstruation status = (february19 - 7 =? january29 + 28) /\
    isOvulation status = (february19 - 7 =? january29 + 28 - 14) /\
    isFertile status = (january29 + 28 - 17 <=? february19 - 7)
                       && (february19 - 7 <=? january29 + 28 - 13).
Proof.
  apply (getDayStatus_marks januaryLogs januaryLogs None february19
           januaryStats "2024-01-29" january29 28 (february19 - 7)).
  - vm_compute. reflexivity.
  - reflexivity.
  - vm_compute. reflexivity.
  - reflexivity.
  - unfold january29, firstIsoDay, lastIsoDay. lia.
  - unfold february19, firstIsoDay, lastIsoDay. lia.
Defined.



(** ** The entries the resolver finds *)

(** Distinct days of the years 0001 to 9999 have distinct texts. *)
Lemma isoDate_inj x y :
  firstIsoDay <= x <= lastIsoDay -> firstIsoDay <= y <= lastIsoDay ->
  isoDate x = isoDate y -> x = y.
Proof.
  intros Hx Hy E. pose proof (parseISO_isoDate x Hx) as Px.
  rewrite E, (parseISO_isoDate y Hy) in Px. congruence.
Qed.

(** X12: the resolver finds what was saved.  After [handleSaveLog(entry)],
    for an entry whose date is the text [formatDate] writes for a day [n] of
    the years 0001 to 9999, the resolver asked about day [n], or about the
    date the entry's text reads as, yields that entry and its period switch,
    whatever the stats then are; asked about any other day it reports the
    same key, entry and period switch as before the save, whatever the stats
    were before ([stats]) and are after ([stats']). *)
Theorem getDayStatus_after_save (logs : Logs) (entry : DayLog) (n : Z)
    (stats stats' : CycleStats.t) :
  date entry = isoDate n ->
  firstIsoDay <= n <= lastIsoDay ->
  (exists status,
     getDayStatus (handleSaveLog logs entry) stats' (Day n) = Return status /\
     getDayStatus (handleSaveLog logs entry) stats' (parseISO (date entry))
       = Return status /\
     dKey status = date entry /\
     log status = Some entry /\
     isMenstruation status = Some (isPeriod entry)) /\
  (forall d, firstIsoDay <= d <= lastIsoDay -> d <> n ->
     exists before after,
       getDayStatus logs stats (Day d) = Return before /\
       getDayStatus (handleSaveLog logs entry) stats' (Day d)
         = Return after /\
       dKey after = dKey before /\
       log after = log before /\
       isMenstruation after = isMenstruation before).
Proof.
  intros Hdate Hn. split.
  - rewrite Hdate, (parseISO_isoDate n Hn). unfold getDayStatus.
    cbn [formatDate format_yyyy_MM_dd mbind completion_bind mret
         completion_ret].
    eexists. split; [reflexivity|]. split; [reflexivity|].
    cbn [dKey log isMenstruation]. unfold handleSaveLog.
    rewrite Hdate, lookup_insert_eq. repeat split.
  - intros d Hd Hne. unfold getDayStatus, handleSaveLog.
    cbn [formatDate format_yyyy_MM_dd mbind completion_bind mret
         completion_ret].
    do 2 eexists. split; [reflexivity|]. split; [reflexivity|].
    cbn [dKey log isMenstruation].
    rewrite lookup_insert_ne; [repeat split|].
    rewrite Hdate. intros E. apply Hne. symmetry.
    exact (isoDate_inj n d Hn Hd E).
Qed.

Lemma getDayStatus_after_save_witness :
  exists stats',
    calculateCycleStats (handleSaveLog januaryLogs (periodLog "2024-02-03"))
      None february19 = Return stats' /\
    stats' <> januaryStats /\
    (exists status,
       getDayStatus (handleSaveLog januaryLogs (periodLog "2024-02-03"))
         stats' (Day (february19 - 16)) = Return status /\
       getDayStatus (handleSaveLog januaryLogs (periodLog "2024-02-03"))
         stats' (parseISO (date (periodLog "2024-02-03"))) = Return status /\
       dKey status = date (periodLog "2024-02-03") /\
       log status = Some (periodLog "2024-02-03") /\
       isMenstruation status = Some (isPeriod (periodLog "2024-02-03"))) /\
    (forall d, firstIsoDay <= d <= lastIsoDay -> d <> february19 - 16 ->
       exists before after,
         getDayStatus januaryLogs januaryStats (Day d) = Return before /\
         getDayStatus (handleSaveLog januaryLogs (periodLog "2024-02-03"))
           stats' (Day d) = Return after /\
         dKey after = dKey before /\
         log after = log before /\
         isMenstruation after = isMenstruation before).
Proof.
  eexists. split; [vm_compute; reflexivity|].
  split; [discriminate|].
  apply (getDayStatus_after_save januaryLogs (periodLog "2024-02-03")
           (february19 - 16) januaryStats).
  - vm_compute. reflexivity.
  - unfold february19, firstIsoDay, lastIsoDay. lia.
Defined.

(** X13: after [handleDeleteLog(key)], for a key that is the text
    [formatDate] writes for a day [n] of the years 0001 to 9999, the resolver
    finds no entry for day [n], whatever the stats then are; asked about any
    other day it reports the same key, entry and period switch as before the
    deletion, whatever the stats were before ([stats]) and are after
    ([stats']). *)
Theorem getDayStatus_after_delete (logs : Logs) (key : string) (n : Z)
    (stats stats' : CycleStats.t) :
  key = isoDate n ->
  firstIsoDay <= n <= lastIsoDay ->
  (exists status,
     getDayStatus (handleDeleteLog logs key) stats' (Day n) = Return status /\
     getDayStatus (handleDeleteLog logs key) stats' (parseISO key)
       = Return status /\
     dKey status = key /\
     log status = None /\
     isMenstruation status = None) /\
  (forall d, firstIsoDay <= d <= lastIsoDay -> d <> n ->
     exists before after,
       getDayStatus logs stats (Day d) = Return before /\
       getDayStatus (handleDeleteLog logs key) stats' (Day d)
         = Return after /\
       dKey after = dKey before /\
       log after = log before /\
       isMenstruation after = isMenstruation before).
Proof.
  intros -> Hn. split.
  - rewrite (parseISO_isoDate n Hn). unfold getDayStatus.
    cbn [formatDate format_yyyy_MM_dd mbind completion_bind mret
         completion_ret].
    eexists. split; [reflexivity|]. split; [reflexivity|].
    cbn [dKey log isMenstruation]. unfold handleDeleteLog.
    rewrite lookup_delete_eq. repeat split.
  - intros d Hd Hne. unfold getDayStatus, handleDeleteLog.
    cbn [formatDate format_yyyy_MM_dd mbind completion_bind mret
         completion_ret].
    do 2 eexists. split; [reflexivity|]. split; [reflexivity|].
    cbn [dKey log isMenstruation].
    rewrite lookup_delete_ne; [repeat split|].
    intros E. apply Hne. symmetry. exact (isoDate_inj n d Hn Hd E).
Qed.

Lemma getDayStatus_after_delete_witness :
  exists stats',
    calculateCycleStats (handleDeleteLog januaryLogs "2024-01-29")
      None february19 = Return stats' /\
    stats' <> januaryStats /\
    (exists status,
       getDayStatus (handleDeleteLog januaryLogs "2024-01-29") stats'
         (Day january29) = Return status /\
       getDayStatus (handleDeleteLog januaryLogs "2024-01-29") stats'
         (parseISO "2024-01-29") = Return status /\
       dKey status = "2024-01-29"%string /\
       log status = None /\
       isMenstruation status = None) /\
    (forall d, firstIsoDay <= d <= lastIsoDay -> d <> january29 ->
       exists before after,
         getDayStatus januaryLogs januaryStats (Day d) = Return before /\
         getDayStatus (handleDeleteLog januaryLogs "2024-01-29") stats'
           (Day d) = Return after /\
         dKey after = dKey before /\
         log after = log before /\
         isMenstruation after = isMenstruation before).
Proof.
  eexists. split; [vm_compute; reflexivity|].
  split; [discriminate|].
  apply (getDayStatus_after_delete januaryLogs "2024-01-29" january29
           januaryStats).
  - vm_compute. reflexivity.
  - unfold january29, firstIsoDay, lastIsoDay. lia.
Defined.

(** ** The order of the phases *)

(** X14: the phases follow one another and never come back: a later day of
    the cycle is in the same phase or in a later one, whatever the two
    lengths of the stats are. *)
Theorem getCyclePhase_monotone (stats : CycleStats.t) (d1 d2 : number) :
  le d1 d2 = true ->
  (phaseIndex (getCyclePhase d1 stats)
   <= phaseIndex (getCyclePhase d2 stats))%nat.
Proof.
  destruct d1 as [x|], d2 as [y|]; try discriminate.
  cbn [le]. intros Hxy%Z.leb_le. unfold getCyclePhase.
  destruct (CycleStats.avgPeriodLength stats) as [p|],
           (CycleStats.avgCycleLength stats) as [l|];
    cbn [le lt add sub];
    repeat match goal with
           | |- context [?a <=? ?b] => destruct (Z.leb_spec a b)
           | |- context [?a <? ?b] => destruct (Z.ltb_spec a b)
           end; cbn [phaseIndex]; lia.
Qed.

Lemma getCyclePhase_monotone_witness :
  (phaseIndex (getCyclePhase (Num 5) januaryStats)
   <= phaseIndex (getCyclePhase (Num 12) januaryStats))%nat.
Proof.
  apply (getCyclePhase_monotone januaryStats (Num 5) (Num 12)). reflexivity.
Defined.

(** ** When the engine throws *)

(** X15: with well-formed logs the engine fails, with the [RangeError] of
    [format], exactly when it has a usable anchor on a day [a] and the text
    of day [a + l], [l] the cycle length it settled on, does not read back as
    a date; the day [a + l] then lies outside the years 0001 to 9999. *)
Theorem calculateCycleStats_throws (logs : Logs)
    (settings : option UserSettings.t) (today : Z) :
  wf_logs logs ->
  calculateCycleStats logs settings today = Throw RangeError <->
  exists s a l,
    base_lastPeriodStart (baseline logs settings) = Some s /\
    parseISO s = Day a /\
    base_avgCycleLength (baseline logs settings) = Num l /\
    parseISO (isoDate (a + l)) = InvalidDate /\
    ~ firstIsoDay <= a + l <= lastIsoDay.
Proof.
  intros Hwf.
  destruct (baseline_cycle_nonzero logs settings Hwf) as (l & Hl & _).
  split.
  - intros Hthrow.
    destruct (base_lastPeriodStart (baseline logs settings)) as [s|] eqn:Hs;
      [|unfold calculateCycleStats in Hthrow; rewrite Hs in Hthrow;
        discriminate Hthrow].
    destruct (anchor_unusable (Some s)) eqn:Hanchor;
      [unfold calculateCycleStats in Hthrow; rewrite Hs, Hanchor in Hthrow;
       discriminate Hthrow|].
    destruct (anchor_usable s Hanchor) as [_ [a Ha]].
    destruct (parseISO (isoDate (a + l))) as [|next] eqn:Hnext.
    + exists s, a, l. repeat split; try assumption.
      intros Hrange. rewrite (parseISO_isoDate _ Hrange) in Hnext.
      discriminate Hnext.
    + rewrite (calculateCycleStats_step logs settings today s a l next
                 Hs Ha Hl Hnext) in Hthrow. discriminate Hthrow.
  - intros (s & a & l' & Hs & Ha & Hl' & Hnext & _).
    rewrite Hl in Hl'. injection Hl' as <-.
    unfold calculateCycleStats. rewrite Hs, Hl. unfold anchor_unusable.
    rewrite (parseISO_truthy s a Ha), Ha.
    cbn [isValid negb orb addDays formatDate format_yyyy_MM_dd mbind
         completion_bind].
    rewrite Hnext. reflexivity.
Qed.

Lemma calculateCycleStats_throws_witness :
  calculateCycleStats ∅ (Some (manualSettings "9999-12-31")) february19
    = Throw RangeError /\
  exists s a l,
    base_lastPeriodStart (baseline ∅ (Some (manualSettings "9999-12-31")))
      = Some s /\
    parseISO s = Day a /\
    base_avgCycleLength (baseline ∅ (Some (manualSettings "9999-12-31")))
      = Num l /\
    parseISO (isoDate (a + l)) = InvalidDate /\
    ~ firstIsoDay <= a + l <= lastIsoDay.
Proof.
  assert (calculateCycleStats ∅ (Some (manualSettings "9999-12-31"))
            february19 = Throw RangeError) as Hthrow
    by (vm_compute; reflexivity).
  split; [exact Hthrow|].
  apply (calculateCycleStats_throws ∅ (Some (manualSettings "9999-12-31"))
           february19); [|exact Hthrow].
  unfold wf_logs. apply (bool_decide_unpack _). vm_compute. exact I.
Defined.

(** ** The month grid *)

Lemma days_from_civil_day y m d1 d2 :
  days_from_civil y m d2 - days_from_civil y m d1 = d2 - d1.
Proof. rewrite !days_from_civil_closed. cbv zeta. lia. Qed.

(** The month of a day: its first and last day, and the day's place. *)
Lemma month_bounds n :
  exists y m d,
    civil_from_days n = (y, m, d) /\
    1 <= d <= daysInMonth y m /\ 28 <= daysInMonth y m <= 31 /\
    startOfMonth n = n - (d - 1) /\
    endOfMonth n = n + (daysInMonth y m - d).
Proof.
  pose proof (civil_from_days_spec n) as H. unfold startOfMonth, endOfMonth.
  destruct (civil_from_days n) as [[y m] d]. destruct H as [Hv Hd].
  exists y, m, d. split; [reflexivity|].
  apply validateDate_true in Hv as [Hm Hday].
  split; [exact Hday|].
  split; [unfold daysInMonth; repeat case_match; lia|].
  pose proof (days_from_civil_day y m 1 d).
  pose proof (days_from_civil_day y m d (daysInMonth y m)). lia.
Qed.

Lemma civil_from_days_days_from_civil y m d :
  validateDate y m d = true -> civil_from_days (days_from_civil y m d) = (y, m, d).
Proof.
  intros Hv. pose proof (civil_from_days_spec (days_from_civil y m d)) as H.
  destruct (civil_from_days (days_from_civil y m d)) as [[y' m'] d'].
  destruct H as [Hv' Hd].
  destruct (decide (y' < y \/ (y' = y /\ (m' < m \/ (m' = m /\ d' < d)))))
    as [Hlt|Hnlt].
  { pose proof (days_from_civil_lt _ _ _ _ _ _ Hv' Hv Hlt). lia. }
  destruct (decide (y < y' \/ (y = y' /\ (m < m' \/ (m = m' /\ d < d')))))
    as [Hgt|Hngt].
  { pose proof (days_from_civil_lt _ _ _ _ _ _ Hv Hv' Hgt). lia. }
  assert (y' = y /\ m' = m /\ d' = d) as (-> & -> & ->) by lia.
  reflexivity.
Qed.

(** Days of one month are the days between its first and its last day. *)
Lemma isSameMonth_between n1 n2 :
  isSameMonth n1 n2 = true <-> startOfMonth n2 <= n1 <= endOfMonth n2.
Proof.
  unfold isSameMonth.
  destruct (month_bounds n2) as (y2 & m2 & d2 & E2 & Hd2 & Hdim2 & Hs2 & He2).
  pose proof (civil_from_days_spec n1) as H1.
  pose proof (civil_from_days_spec n2) as H2.
  rewrite Hs2, He2. rewrite E2 in *.
  destruct (civil_from_days n1) as [[y1 m1] d1].
  destruct H1 as [Hv1 Hn1], H2 as [Hv2 Hn2].
  rewrite andb_true_iff, !Z.eqb_eq. split.
  - intros [-> ->]. subst n1 n2.
    apply validateDate_true in Hv1 as [_ Hd1].
    pose proof (days_from_civil_day y2 m2 d2 d1). lia.
  - intros Hbetween.
    assert (validateDate y2 m2 (n1 - n2 + d2) = true) as Hv.
    { apply validateDate_true. apply validateDate_true in Hv2 as [Hm _].
      split; [exact Hm|lia]. }
    pose proof (civil_from_days_days_from_civil _ _ _ Hv) as Hc.
    pose proof (days_from_civil_day y2 m2 d2 (n1 - n2 + d2)) as Hdiff.
    replace (days_from_civil y2 m2 (n1 - n2 + d2)) with n1 in Hc by lia.
    pose proof (civil_from_days_spec n1) as H1'. rewrite Hc in H1'.
    destruct H1' as [_ Hn1'].
    assert (civil_from_days n1 = (y1, m1, d1)) as Hc1.
    { rewrite <- Hn1. apply civil_from_days_days_from_civil. exact Hv1. }
    rewrite Hc in Hc1. injection Hc1 as <- <- _. split; reflexivity.
Qed.

(** X16: the month grid.  [getCalendarDays] lists consecutive days, from a
    Sunday to a Saturday, in four to six full weeks; the days of the month of
    [currentDate] are all among them, and the other days of the grid are the
    six days at most before the month and the six at most after it. *)
Theorem getCalendarDays_grid (currentDate : Z) :
  let grid := getCalendarDays currentDate in
  exists first weeks,
    grid = Day <$> seqZ first (7 * weeks) /\
    4 <= weeks <= 6 /\
    getDay first = 0 /\ getDay (first + 7 * weeks - 1) = 6 /\
    startOfMonth currentDate - 6 <= first <= startOfMonth currentDate /\
    endOfMonth currentDate <= first + 7 * weeks - 1
      <= endOfMonth currentDate + 6 /\
    (forall n, isSameMonth n currentDate = true -> Day n ∈ grid).
Proof.
  intros grid. subst grid. unfold getCalendarDays, eachDayOfInterval.
  destruct (month_bounds currentDate)
    as (y & m & d & E & Hd & Hdim & Hs & He).
  set (som := startOfMonth currentDate) in *.
  set (eom := endOfMonth currentDate) in *.
  exists (startOfWeek som), ((endOfWeek eom - startOfWeek som + 1) / 7).
  unfold startOfWeek, endOfWeek, getDay in *.
  assert (0 <= (som + 4) mod 7 < 7) as Hg1 by (apply Z.mod_pos_bound; lia).
  assert (0 <= (eom + 4) mod 7 < 7) as Hg2 by (apply Z.mod_pos_bound; lia).
  assert ((eom + (6 - (eom + 4) mod 7) - (som - (som + 4) mod 7) + 1) mod 7
          = 0) as Hdiv by div_lia.
  split.
  { do 2 f_equal. div_lia. }
  split; [div_lia|].
  split; [div_lia|].
  split; [div_lia|].
  split; [lia|].
  split; [div_lia|].
  intros n Hn. apply isSameMonth_between in Hn. fold som eom in Hn.
  apply list_elem_of_fmap_2, elem_of_seqZ. lia.
Qed.

(** ** The day dialog *)

(** X17: [handleToggle] switches the one item and nothing else: the item is
    in the new list exactly when it was not in the old one, every other item
    stays in or out, a list without repetitions stays one, and switching an
    item on and off again gives the list back. *)
Theorem handleToggle_switches (list : Datatypes.list string) (item : string) :
  (item ∈ DayModal.handleToggle list item <-> item ∉ list) /\
  (forall other, other <> item ->
     other ∈ DayModal.handleToggle list item <-> other ∈ list) /\
  (NoDup list -> NoDup (DayModal.handleToggle list item)) /\
  (item ∉ list ->
   DayModal.handleToggle (DayModal.handleToggle list item) item = list).
Proof.
  assert (item ∈ list ->
          DayModal.handleToggle list item = filter (fun i => i <> item) list)
    as Hon.
  { intros Hin. unfold DayModal.handleToggle.
    rewrite bool_decide_eq_true_2 by exact Hin. reflexivity. }
  assert (item ∉ list -> DayModal.handleToggle list item = list ++ [item])
    as Hoff.
  { intros Hnin. unfold DayModal.handleToggle.
    rewrite bool_decide_eq_false_2 by exact Hnin. reflexivity. }
  destruct (decide (item ∈ list)) as [Hin|Hnin].
  - rewrite (Hon Hin). clear Hon Hoff.
    split; [|split; [|split]].
    + split; [|intros H; contradiction].
      intros [H _]%list_elem_of_filter. congruence.
    + intros other Hne. rewrite list_elem_of_filter. tauto.
    + intros Hnd. apply NoDup_filter. exact Hnd.
    + intros H. contradiction.
  - rewrite (Hoff Hnin). clear Hon Hoff.
    split; [|split; [|split]].
    + split; [intros _; exact Hnin|].
      intros _. apply elem_of_app. right. apply list_elem_of_here.
    + intros other Hne. rewrite elem_of_app, list_elem_of_singleton. tauto.
    + intros Hnd. apply NoDup_app. split; [exact Hnd|].
      split; [|apply NoDup_singleton].
      intros x Hx ->%list_elem_of_singleton. contradiction.
    + intros _. unfold DayModal.handleToggle.
      rewrite bool_decide_eq_true_2
        by (apply elem_of_app; right; apply list_elem_of_here).
      rewrite filter_app, filter_cons_False, filter_nil, app_nil_r
        by (intros H; apply H; reflexivity).
      clear -Hnin. induction list as [|x l IH]; [reflexivity|].
      apply not_elem_of_cons in Hnin as [Hx Hl].
      rewrite filter_cons_True by congruence. f_equal. exact (IH Hl).
Qed.

(** X18: saving an entry untouched.  When the entry filed under a date is
    one the dialog saved, opening the dialog on it and saving it again
    leaves the logs as they are. *)
Theorem resave_changes_nothing (logs : Logs) (d : string)
    (st : DayModal.state) :
  logs !! d = Some (DayModal.onSave d st) ->
  handleSaveLog logs (DayModal.onSave d (DayModal.init (logs !! d))) = logs.
Proof.
  intros Hd. rewrite Hd. unfold handleSaveLog.
  assert (DayModal.onSave d (DayModal.init (Some (DayModal.onSave d st)))
          = DayModal.onSave d st) as ->.
  { destruct st as [p i s m n mn w sl]. unfold DayModal.onSave, DayModal.init.
    cbn. destruct p; reflexivity. }
  apply insert_id. exact Hd.
Qed.

Lemma resave_changes_nothing_witness :
  handleSaveLog januaryLogs
    (DayModal.onSave "2024-01-29"
       (DayModal.init (januaryLogs !! "2024-01-29"%string)))
  = januaryLogs.
Proof.
  apply (resave_changes_nothing januaryLogs "2024-01-29" periodState).
  vm_compute. reflexivity.
Defined.


